(** * Deck AI API service: quiz reconciliation, selection and moderation

    A shallow embedding of

    - [services/quizService.js]: [geminiQuizService];
    - [controllers/quizController.js]: the validation of [numOfQuiz] in
      [geminiQuizController];
    - [services/moderationService.js]: [geminiModerationService] in the
      revision which stages the deck in a file and records a publish
      request (the other revision among the sources sends the deck inline
      and records nothing), [formatPrompt], [chunkArray], and
      [aggregateModerationResults], which is the same in both revisions;
    - [repositories/publishRequestRepository.js]: [createPublishRequest]
      and [getPublishRequestByDeckId];
    - [services/flashcardService.js]: [geminiFlashcardService];
    - [repositories/fileRepository.js]: [downloadFile] and
      [cleanupTempFile], as the flashcard service uses them;

    and the properties of the specification that are stated about them.

    The services are asynchronous JavaScript functions which talk to
    Firestore, to the file system and to a generation capability.  They
    are embedded in a state-and-exception monad over an explicit [World]:
    every [await]ed call is a monadic action that either returns or
    throws, [try { .. } catch (error) { .. }] is [try_catch], and every
    call to a collaborator is recorded in the world's trace.  The deck and
    quiz repositories, the generator and the shuffle are not among the
    sources; they are modelled from their contracts in the specification
    and may be made to fail by the environment. *)

From Stdlib Require Import ZArith List Lia.
From stdpp Require Import base option list strings gmap fin_maps pretty.

Open Scope string_scope.
Open Scope list_scope.
Open Scope Z_scope.

(* ===================================================================== *)
(** * JavaScript values, errors and the effect monad                     *)
(* ===================================================================== *)

Module Js.

(** The JavaScript values which reach the services as [deckId], [id]
    (the request owner, [req.user?.user_id]) and as document fields. *)
Inductive JsVal : Type :=
| JUndefined
| JNull
| JBool (b : bool)
| JNum (z : Z)
| JStr (s : string)
| JTime (t : Z)            (* a resolved Firestore timestamp *)
| JServerTimestamp.        (* the FieldValue.serverTimestamp() sentinel *)

#[global] Instance JsVal_eq_dec : EqDecision JsVal.
Proof. solve_decision. Defined.

(** [!v] *)
Definition falsy (v : JsVal) : bool :=
  match v with
  | JUndefined | JNull => true
  | JBool b => negb b
  | JNum z => z =? 0
  | JStr s => if decide (s = "") then true else false
  | JTime _ | JServerTimestamp => false
  end.

(** [typeof v !== 'string'] *)
Definition not_a_string (v : JsVal) : bool :=
  match v with JStr _ => false | _ => true end.

(** The string a value contributes to a template literal. *)
Definition to_string (v : JsVal) : string :=
  match v with
  | JUndefined => "undefined"
  | JNull => "null"
  | JBool true => "true"
  | JBool false => "false"
  | JNum z => pretty z
  | JStr s => s
  | JTime t => pretty t
  | JServerTimestamp => "[object Object]"
  end.

(** An [Error] object: the two fields the services read or write. *)
Record JsError : Type := mkError { err_name : string; err_message : string }.

(** [new Error(msg)]: the name of a fresh error is "Error". *)
Definition new_Error (msg : string) : JsError :=
  {| err_name := "Error"; err_message := msg |}.

(** Reading a property of [undefined] or [null]. *)
Definition TypeError (msg : string) : JsError :=
  {| err_name := "TypeError"; err_message := msg |}.

(** How an awaited computation ends. *)
Inductive Outcome (A : Type) : Type :=
| Returned (a : A)
| Thrown (e : JsError).
Arguments Returned {A} a.
Arguments Thrown {A} e.

(** Computations over a state [St] which return or throw. *)
Definition Eff (St A : Type) : Type := St -> Outcome A * St.

Definition ret {St A} (a : A) : Eff St A := fun w => (Returned a, w).

Definition throw {St A} (e : JsError) : Eff St A := fun w => (Thrown e, w).

Definition bind {St A B} (m : Eff St A) (k : A -> Eff St B) : Eff St B :=
  fun w =>
    match m w with
    | (Returned a, w') => k a w'
    | (Thrown e, w') => (Thrown e, w')
    end.

(** [try { m } catch (error) { h error }] *)
Definition try_catch {St A} (m : Eff St A) (h : JsError -> Eff St A) : Eff St A :=
  fun w =>
    match m w with
    | (Returned a, w') => (Returned a, w')
    | (Thrown e, w') => h e w'
    end.

Definition get {St} : Eff St St := fun w => (Returned w, w).

Definition modify {St} (f : St -> St) : Eff St unit := fun w => (Returned tt, f w).

(** Lifting a pure outcome. *)
Definition lift {St A} (o : Outcome A) : Eff St A := fun w => (o, w).

End Js.

Export Js.

Declare Scope eff_scope.
Delimit Scope eff_scope with eff.
Notation "x <- m ;; k" := (bind m (fun x => k))
  (at level 100, m at next level, right associativity) : eff_scope.
Notation "m ;;; k" := (bind m (fun _ => k))
  (at level 100, right associativity) : eff_scope.

(* ===================================================================== *)
(** * ShuffleSelector                                                    *)
(* ===================================================================== *)

Module Shuffle.

Section Generic.
Context {A : Type}.

(** Exchange of the elements at [i] and [j]; positions outside the
    array never occur in the shuffle. *)
Definition swap (l : list A) (i j : nat) : list A :=
  match l !! i, l !! j with
  | Some x, Some y => <[i:=y]> (<[j:=x]> l)
  | _, _ => l
  end.

(** The loop [for (i = last; i > 0; i--)] with the draw [j] in [0, i]
    taken from [rand i]. *)
Fixpoint fy_loop (rand : nat -> nat) (i : nat) (l : list A) : list A :=
  match i with
  | O => l
  | S i' => fy_loop rand i' (swap l i (rand i mod (i + 1))%nat)
  end.

(** Modelled from the spec: [fischerYatesShuffle] of [utils/utils.js],
    which is not among the sources.  "for index i from last down to 1,
    draw a uniformly random index j in [0, i] and swap elements i and
    j"; the random source is the parameter [rand]. *)
Definition fischerYatesShuffle (rand : nat -> nat) (l : list A) : list A :=
  fy_loop rand (length l - 1)%nat l.

(** [Math.ceil(len * 0.5)] on an array length. *)
Definition ceil_half (len : Z) : Z := (len + 1) / 2.

(** [arr.slice(0, e)] for an integer [e]: a negative end counts from
    the end of the array, an end past the array is clamped. *)
Definition slice0 (l : list A) (e : Z) : list A :=
  let len := Z.of_nat (length l) in
  let final := if e <? 0 then Z.max (len + e) 0 else Z.min e len in
  take (Z.to_nat final) l.

(** The error of the count check (quizService.js, lines 151-153,
    211-213 and 237-239): the code is stored in [name], the [message]
    is the English sentence. *)
Definition exceeds_error : JsError :=
  {| err_name := "EXCEEDS_AVAILABLE_CARDS";
     err_message := "Requested number of flashcards exceeds available cards." |}.

(** [let numToReturn = numOfQuiz; if (numToReturn === null ||
    numToReturn === undefined) numToReturn = Math.ceil(length * 0.5)] *)
Definition numToReturn (numOfQuiz : option Z) (shuffledQuizzes : list A) : Z :=
  match numOfQuiz with
  | None => ceil_half (Z.of_nat (length shuffledQuizzes))
  | Some n => n
  end.

(** The selection which closes each of the three paths of
    [geminiQuizService] (lines 143-156, 203-216, 229-242; the three
    copies are the same text). *)
Definition select (shuffledQuizzes : list A) (numOfQuiz : option Z)
  : Outcome (list A) :=
  let n := numToReturn numOfQuiz shuffledQuizzes in
  if Z.of_nat (length shuffledQuizzes) <? n
  then Thrown exceeds_error
  else Returned (slice0 shuffledQuizzes n).

End Generic.

(** [geminiQuizController]: [limit = numOfQuiz ? parseInt(numOfQuiz, 10)
    : null], then the range check; [None] is the 400 answer of the
    controller, [Some limit] is what the service is called with.  The
    body field is given as the integer [parseInt] reads ([None] when it
    reads [NaN]). *)
Inductive BodyNum : Type :=
| BodyMissing                 (* undefined, null, "" or 0: falsy *)
| BodyParsed (n : option Z).  (* truthy; [parseInt] gives n or NaN *)

Definition controller_limit (numOfQuiz : BodyNum) : option (option Z) :=
  match numOfQuiz with
  | BodyMissing => Some None
  | BodyParsed None => None
  | BodyParsed (Some limit) =>
      if (limit <? 5) || (50 <? limit) then None else Some (Some limit)
  end.

End Shuffle.

(* ===================================================================== *)
(** * VerdictAggregator                                                  *)
(* ===================================================================== *)

Module Aggregator.

Record FlaggedCard : Type :=
  { fl_definition : string; fl_term : string; fl_reason : string }.

(** A field which should hold an array: [Array.isArray] decides. *)
Inductive JsArrayish (A : Type) : Type :=
| NotArray
| JsArray (l : list A).
Arguments NotArray {A}.
Arguments JsArray {A} l.

(** [overall_verdict]; [is_appropriate] is the truthiness of the field. *)
Record OverallVerdict : Type :=
  { is_appropriate : bool;
    moderation_decision : string;
    flagged_cards : JsArrayish FlaggedCard }.

Record ModerationData : Type := { overall_verdict : OverallVerdict }.

(** One per-batch response: [response.data.overall_verdict]. *)
Record AiResponse : Type := { data : ModerationData }.

(** The three [let] variables of [aggregateModerationResults]. *)
Record AggState : Type :=
  { isAppropriate : bool;
    inappropriateItems : list FlaggedCard;
    moderationDecision : string }.

(** The body of [for (const response of aiResponses)]. *)
Fixpoint aggregate_loop (aiResponses : list AiResponse) (st : AggState) : AggState :=
  match aiResponses with
  | [] => st
  | response :: rest =>
      let v := overall_verdict (data response) in
      if negb (is_appropriate v) then
        let items :=
          match flagged_cards v with
          | JsArray cards =>
              if (0 <? length cards)%nat
              then inappropriateItems st ++ cards
              else inappropriateItems st
          | NotArray => inappropriateItems st
          end in
        aggregate_loop rest
          {| isAppropriate := false;
             inappropriateItems := items;
             moderationDecision := moderation_decision v |}
      else aggregate_loop rest st
  end.

(** [aggregateModerationResults] (moderationService.js, lines 118-141). *)
Definition aggregateModerationResults (aiResponses : list AiResponse) : ModerationData :=
  let st := aggregate_loop aiResponses
              {| isAppropriate := true;
                 inappropriateItems := [];
                 moderationDecision := "Content is appropriate" |} in
  {| overall_verdict :=
       {| is_appropriate := isAppropriate st;
          moderation_decision := moderationDecision st;
          flagged_cards := JsArray (inappropriateItems st) |} |}.

(** ** The reference fold, in the words of the specification *)

(** The flagged items a response contributes: none when its list is
    empty or is not an array. *)
Definition flagged_items (v : OverallVerdict) : list FlaggedCard :=
  match flagged_cards v with
  | JsArray cards => cards
  | NotArray => []
  end.

Definition ref_initial : OverallVerdict :=
  {| is_appropriate := true;
     moderation_decision := "Content is appropriate";
     flagged_cards := JsArray [] |}.

(** One response: an inappropriate one sets the flag to false,
    overwrites the decision and appends its flagged items; an
    appropriate one changes nothing. *)
Definition ref_step (acc : OverallVerdict) (response : AiResponse) : OverallVerdict :=
  let v := overall_verdict (data response) in
  if is_appropriate v then acc
  else {| is_appropriate := false;
          moderation_decision := moderation_decision v;
          flagged_cards := JsArray (flagged_items acc ++ flagged_items v) |}.

Definition ref_aggregate (aiResponses : list AiResponse) : OverallVerdict :=
  fold_left ref_step aiResponses ref_initial.

(** The responses whose verdict is inappropriate, in order. *)
Definition inappropriate (aiResponses : list AiResponse) : list OverallVerdict :=
  List.filter (fun v => negb (is_appropriate v))
              (map (fun r => overall_verdict (data r)) aiResponses).

End Aggregator.

(* ===================================================================== *)
(** * The world of the services: Firestore, /tmp and the generator       *)
(* ===================================================================== *)

Module Store.
Import Aggregator.

Record Flashcard : Type :=
  { fc_id : string; fc_term : string; fc_definition : string; fc_created_at : JsVal }.

Record Deck : Type :=
  { flashcards : list Flashcard;
    made_to_quiz_at : option JsVal }.   (* [None]: the field is absent *)

Record Choice : Type := { text : string; is_correct : bool }.

Record Question : Type :=
  { question : string; related_flashcard_id : string; choices : list Choice }.

(** A document of the 'quiz' collection with its questions. *)
Record Quiz : Type :=
  { associated_deck_id : string;
    created_at : JsVal;
    is_deleted : bool;
    quiz_type : string;
    updated_at : JsVal;
    questions : list Question }.

(** Identifiers of quiz documents are opaque; a document is identified
    by its position in the collection. *)
Definition QuizId : Type := nat.

(** What the quiz repository hands out: the document with its id. *)
Record QuizObject : Type := { id : QuizId; doc : Quiz }.

Definition set_questions (q : Quiz) (qs : list Question) : Quiz :=
  {| associated_deck_id := associated_deck_id q;
     created_at := created_at q;
     is_deleted := is_deleted q;
     quiz_type := quiz_type q;
     updated_at := updated_at q;
     questions := qs |}.

(** A field of a 'publish_requests' document. *)
Inductive FieldVal : Type :=
| FVal (v : JsVal)
| FVerdict (v : option OverallVerdict).   (* [None]: undefined *)

(** [result.quiz_data] of a generation result. *)
Inductive QuizData : Type :=
| QdQuiz (quiz : JsArrayish Question)                (* { quiz: .. } *)
| QdVerdict (overall_verdict : option OverallVerdict). (* { overall_verdict: .. } *)

(** What [sendPromptInline] resolves to. *)
Inductive AiResult : Type :=
| AiNullish                               (* undefined or null *)
| AiObject (quiz_data : option QuizData). (* [None]: no quiz_data *)

Inductive Schema : Type := quizSchema | moderatedFlashcardsSchema.

(** [quizPrompt(number)] and [moderationPrompt()]: the text of the first
    depends on [number] alone, the second is a constant. *)
Inductive Prompt : Type := quizPrompt (number : nat) | moderationPrompt.

(** The calls to collaborators. *)
Inductive Op : Type :=
| OpGetDeckAndCheckField | OpGetQuizByDeckIDAndQuizType | OpGetDeckById
| OpWriteFile | OpSendPromptInline | OpCreateQuizForDeck
| OpCreateQuestionAndAnswer | OpUpdateDeck | OpGetQuizByID
| OpGetNewFlashcards | OpCreatePublishRequest | OpGetPublishRequestByDeckId.

Inductive Event : Type :=
| EvGetDeckAndCheckField (deckId field : string)
| EvGetQuizByDeckIDAndQuizType (deckId type : string)
| EvGetDeckById (deckId : string)
| EvWriteFile (path content : string)
| EvSendPromptInline (schema : Schema) (prompt : Prompt) (path : string)
| EvCreateQuizForDeck (deckId : string)
| EvCreateQuestionAndAnswer (quizId : QuizId) (questionAndAnswer : list Question)
| EvUpdateDeck (deckId : string)
| EvGetQuizByID (quizId : QuizId)
| EvGetNewFlashcards (deckId : string) (since : JsVal)
| EvCreatePublishRequest (userID : JsVal) (deckID : JsVal)
| EvGetPublishRequestByDeckId (deckId : JsVal).

Definition op_of (e : Event) : Op :=
  match e with
  | EvGetDeckAndCheckField _ _ => OpGetDeckAndCheckField
  | EvGetQuizByDeckIDAndQuizType _ _ => OpGetQuizByDeckIDAndQuizType
  | EvGetDeckById _ => OpGetDeckById
  | EvWriteFile _ _ => OpWriteFile
  | EvSendPromptInline _ _ _ => OpSendPromptInline
  | EvCreateQuizForDeck _ => OpCreateQuizForDeck
  | EvCreateQuestionAndAnswer _ _ => OpCreateQuestionAndAnswer
  | EvUpdateDeck _ => OpUpdateDeck
  | EvGetQuizByID _ => OpGetQuizByID
  | EvGetNewFlashcards _ _ => OpGetNewFlashcards
  | EvCreatePublishRequest _ _ => OpCreatePublishRequest
  | EvGetPublishRequestByDeckId _ => OpGetPublishRequestByDeckId
  end.

(** The calls which change persisted state, and the generation call. *)
Definition is_write (o : Op) : bool :=
  match o with
  | OpCreateQuizForDeck | OpCreateQuestionAndAnswer | OpUpdateDeck
  | OpCreatePublishRequest => true
  | _ => false
  end.

Definition is_generation (o : Op) : bool :=
  match o with OpSendPromptInline => true | _ => false end.

(** Persisted state, staged files, the server clock and the calls made. *)
Record World : Type :=
  { decks : gmap string Deck;
    quizzes : list Quiz;
    publish_requests : list (gmap string FieldVal);
    tmp_files : gmap string string;
    now : Z;
    trace : list Event }.

(** What the services do not decide: how a collaborator fails (a failing
    call rejects before it has any effect), what the generator answers,
    the random source of the shuffle, [JSON.stringify], the imported
    constant [timeStamp] of [config/firebaseAdminConfig.js], and whether
    the quiz repository answers "no quiz" by [null] or by []. *)
Record Env : Type :=
  { faults : Op -> option JsError;
    generate : Schema -> Prompt -> option string -> Outcome AiResult;
    rand : nat -> nat;
    json_stringify : list Flashcard -> string;
    timeStamp : JsVal;
    absent_is_null : bool }.

Definition set_decks (w : World) (d : gmap string Deck) : World :=
  {| decks := d; quizzes := quizzes w; publish_requests := publish_requests w;
     tmp_files := tmp_files w; now := now w; trace := trace w |}.

Definition set_quizzes (w : World) (q : list Quiz) : World :=
  {| decks := decks w; quizzes := q; publish_requests := publish_requests w;
     tmp_files := tmp_files w; now := now w; trace := trace w |}.

Definition set_publish_requests (w : World) (p : list (gmap string FieldVal)) : World :=
  {| decks := decks w; quizzes := quizzes w; publish_requests := p;
     tmp_files := tmp_files w; now := now w; trace := trace w |}.

Definition set_tmp_files (w : World) (f : gmap string string) : World :=
  {| decks := decks w; quizzes := quizzes w; publish_requests := publish_requests w;
     tmp_files := f; now := now w; trace := trace w |}.

Definition set_trace (w : World) (t : list Event) : World :=
  {| decks := decks w; quizzes := quizzes w; publish_requests := publish_requests w;
     tmp_files := tmp_files w; now := now w; trace := t |}.

(** The persisted part of a world. *)
Definition persisted (w : World)
  : gmap string Deck * list Quiz * list (gmap string FieldVal) :=
  (decks w, quizzes w, publish_requests w).

(** An awaited call to a collaborator: it is recorded, and it rejects
    when the environment makes it fail. *)
Definition call {A} (env : Env) (e : Event) (body : Eff World A) : Eff World A :=
  (modify (fun w => set_trace w (trace w ++ [e])) ;;;
   match faults env (op_of e) with
   | Some err => throw err
   | None => body
   end)%eff.

(** Firestore replaces the server-timestamp sentinel by the commit time. *)
Definition commit_time (w : World) (v : JsVal) : JsVal :=
  match v with JServerTimestamp => JTime (now w) | _ => v end.

(** [created_at > since] in a Firestore query. *)
Definition newer_than (since : JsVal) (f : Flashcard) : bool :=
  match since, fc_created_at f with
  | JTime t, JTime c => t <? c
  | _, _ => false
  end.

(** ** Deck repository *)

Record DeckInfo : Type :=
  { exists_ : bool; field_exists : bool; field_value : option JsVal }.

(** Modelled from the spec: [getDeckAndCheckField] of
    [repositories/deckRepository.js], which is not among the sources.
    "getDeckWatermark(id, fieldName) -> {exists, fieldExists, value}";
    the only field the services ask for is [made_to_quiz_at]. *)
Definition getDeckAndCheckField (env : Env) (deckId field : string) : Eff World DeckInfo :=
  call env (EvGetDeckAndCheckField deckId field)
    (w <- get ;;
     ret match decks w !! deckId with
         | None => {| exists_ := false; field_exists := false; field_value := None |}
         | Some d =>
             {| exists_ := true;
                field_exists := match made_to_quiz_at d with Some _ => true | None => false end;
                field_value := made_to_quiz_at d |}
         end)%eff.

(** Modelled from the spec: [getDeckById] of the deck repository.
    "getDeck(id) -> Deck | NOT_FOUND", reported as [DECK_NOT_FOUND]. *)
Definition getDeckById (env : Env) (deckId : string) : Eff World Deck :=
  call env (EvGetDeckById deckId)
    (w <- get ;;
     match decks w !! deckId with
     | None => throw (new_Error "DECK_NOT_FOUND")
     | Some d => ret d
     end)%eff.

(** Modelled from the spec: [updateDeck] of the deck repository,
    "updateDeck(id, patch)" with the patch [{made_to_quiz_at: timeStamp}];
    updating a document which does not exist is rejected. *)
Definition updateDeck (env : Env) (deckId : string) (made_to_quiz_at_ : JsVal)
  : Eff World unit :=
  call env (EvUpdateDeck deckId)
    (w <- get ;;
     match decks w !! deckId with
     | None => throw (new_Error "DECK_NOT_FOUND")
     | Some d =>
         modify (fun w =>
           set_decks w
             (<[deckId := {| flashcards := flashcards d;
                             made_to_quiz_at := Some (commit_time w made_to_quiz_at_) |}]>
                (decks w)))
     end)%eff.

(** The flashcards of the deck which are newer than [since]. *)
Definition new_flashcards (w : World) (deckId : string) (since : JsVal) : list Flashcard :=
  match decks w !! deckId with
  | None => []
  | Some d => List.filter (newer_than since) (flashcards d)
  end.

(** Modelled from the spec: [getNewFlashcards] of the deck repository,
    "getFlashcardsNewerThan(deckId, timestamp) -> sequence". *)
Definition getNewFlashcards (env : Env) (deckId : string) (since : JsVal)
  : Eff World (list Flashcard) :=
  call env (EvGetNewFlashcards deckId since)
    (w <- get ;; ret (new_flashcards w deckId since))%eff.

(** ** Quiz repository *)

Definition quiz_objects (qs : list Quiz) : list QuizObject :=
  imap (fun i q => {| id := i; doc := q |}) qs.

Definition matches (deckId type : string) (o : QuizObject) : bool :=
  bool_decide (associated_deck_id (doc o) = deckId)
  && bool_decide (quiz_type (doc o) = type).

(** The documents a query by deck and type finds, in collection order. *)
Definition quizzes_of_deck (w : World) (deckId type : string) : list QuizObject :=
  List.filter (matches deckId type) (quiz_objects (quizzes w)).

(** Modelled from the spec: [getQuizByDeckIDAndQuizType] of
    [repositories/quizRepository.js], which is not among the sources.
    "getQuizByDeckAndType(deckId, type) -> Quiz | absent"; the service
    reads the answer as an array, [None] is [null]. *)
Definition getQuizByDeckIDAndQuizType (env : Env) (deckId type : string)
  : Eff World (option (list QuizObject)) :=
  call env (EvGetQuizByDeckIDAndQuizType deckId type)
    (w <- get ;;
     let found := quizzes_of_deck w deckId type in
     ret match found with
         | [] => if absent_is_null env then None else Some []
         | _ => Some found
         end)%eff.

(** Modelled from the spec: [createQuizForDeck] of the quiz repository,
    "createQuiz(metadata) -> quizId"; the new document has no question. *)
Definition createQuizForDeck (env : Env) (metadata : Quiz) : Eff World QuizId :=
  call env (EvCreateQuizForDeck (associated_deck_id metadata))
    (w <- get ;;
     modify (fun w =>
       set_quizzes w
         (quizzes w ++
            [ {| associated_deck_id := associated_deck_id metadata;
                 created_at := commit_time w (created_at metadata);
                 is_deleted := is_deleted metadata;
                 quiz_type := quiz_type metadata;
                 updated_at := commit_time w (updated_at metadata);
                 questions := [] |} ])) ;;;
     ret (length (quizzes w)))%eff.

(** Modelled from the spec: [createQuestionAndAnswer] of the quiz
    repository, "appendQuestions(quizId, questions)". *)
Definition createQuestionAndAnswer (env : Env) (quizId : QuizId)
    (questionAndAnswer : list Question) : Eff World unit :=
  call env (EvCreateQuestionAndAnswer quizId questionAndAnswer)
    (modify (fun w =>
       set_quizzes w
         (alter (fun q => set_questions q (questions q ++ questionAndAnswer))
                quizId (quizzes w)))).

(** Modelled from the spec: [getQuizByID] of the quiz repository,
    "getQuizById(quizId, type) -> Quiz"; the answer is a fresh object,
    and a quiz which is not found is an error. *)
Definition getQuizByID (env : Env) (quizId : QuizId) (type : string)
  : Eff World QuizObject :=
  call env (EvGetQuizByID quizId)
    (w <- get ;;
     match quizzes w !! quizId with
     | Some q =>
         if bool_decide (quiz_type q = type)
         then ret {| id := quizId; doc := q |}
         else throw (new_Error "QUIZ_NOT_FOUND")
     | None => throw (new_Error "QUIZ_NOT_FOUND")
     end)%eff.

(** ** File system and generator *)

(** [path.join(tmpDir, destFilename)], for a file name without
    separators. *)
Definition path_join (dir file : string) : string := dir +:+ "/" +:+ file.

(** [writeFile(path, content)] of [fs/promises]. *)
Definition writeFile (env : Env) (path content : string) : Eff World unit :=
  call env (EvWriteFile path content)
    (modify (fun w => set_tmp_files w (<[path := content]> (tmp_files w)))).

(** [sendPromptInline(schema, prompt, filePath, "txt")] of
    [services/aiService.js]: the generator is opaque, it is given the
    staged file and answers or rejects as the environment says. *)
Definition sendPromptInline (env : Env) (schema : Schema) (prompt : Prompt)
    (filePath : string) : Eff World AiResult :=
  call env (EvSendPromptInline schema prompt filePath)
    (w <- get ;;
     lift (generate env schema prompt (tmp_files w !! filePath)))%eff.

End Store.

(* ===================================================================== *)
(** * QuizReconciler: [geminiQuizService]                                *)
(* ===================================================================== *)

Module QuizService.
Import Shuffle Store.

(** The response envelope of both services. *)
Record Response (D : Type) : Type :=
  { status : Z; request_owner_id : JsVal; message : string; data : option D }.
Arguments status {D} r.
Arguments request_owner_id {D} r.
Arguments message {D} r.
Arguments data {D} r.

(** [{quizContent: quizObject}] *)
Record QuizPayload : Type := { quizContent : QuizObject }.

(** The variables [statusCode], [data] and [message]. *)
Record Vars (D : Type) : Type :=
  { statusCode : Z; data_ : option D; message_ : string }.
Arguments statusCode {D} v.
Arguments data_ {D} v.
Arguments message_ {D} v.

(** Lines 44-46: the values the variables start with. *)
Definition initial_vars (deckId : JsVal) : Vars QuizPayload :=
  {| statusCode := 400;
     data_ := None;
     message_ := "Quiz creation for deck with id:" +:+ to_string deckId
                 +:+ " is unsuccessful" |}.

Definition invalid_ai_response : JsError :=
  new_Error "Invalid AI response: quiz_data is missing or not an array".

(** [!result.quiz_data || !Array.isArray(result.quiz_data.quiz)], then
    [result.quiz_data.quiz]: reading [quiz_data] of a nullish result is
    a TypeError, a result of the wrong shape is the "Invalid AI
    response" error. *)
Definition quiz_of_result (result : AiResult) : Outcome (list Question) :=
  match result with
  | AiNullish => Thrown (TypeError "Cannot read properties of undefined (reading 'quiz_data')")
  | AiObject None => Thrown invalid_ai_response
  | AiObject (Some (QdVerdict _)) => Thrown invalid_ai_response
  | AiObject (Some (QdQuiz Aggregator.NotArray)) => Thrown invalid_ai_response
  | AiObject (Some (QdQuiz (Aggregator.JsArray quiz))) => Returned quiz
  end.

(** The file the flashcards are staged in. *)
Definition tmpFilePath (id : string) : string :=
  path_join "/tmp" ("downloadQuiz-" +:+ id +:+ ".txt").

(** Lines 138-163, 198-222 and 224-248: read the quiz back, shuffle,
    select, and build the answer.  The assignment [quizObject.questions
    = selectedQuizzes] changes the object which was read, not the
    collection. *)
Definition select_tail (env : Env) (quizId : QuizId) (numOfQuiz : option Z)
    (success : string) : Eff World (Vars QuizPayload) :=
  (quizObject <- getQuizByID env quizId "multiple-choice" ;;
   let quizzes := questions (doc quizObject) in
   let shuffledQuizzes := fischerYatesShuffle (rand env) quizzes in
   selectedQuizzes <- lift (select shuffledQuizzes numOfQuiz) ;;
   let quizObject :=
     {| id := id quizObject;
        doc := set_questions (doc quizObject) selectedQuizzes |} in
   ret {| statusCode := 200;
          data_ := Some {| quizContent := quizObject |};
          message_ := success |})%eff.

(** Lines 96-164: the deck has no quiz yet. *)
Definition create_path (env : Env) (deckId id : string) (numOfQuiz : option Z)
  : Eff World (Vars QuizPayload) :=
  (deck <- getDeckById env deckId ;;
   let deckTermsAndDef := flashcards deck in
   if (0 <? length deckTermsAndDef)%nat then
     let quizzesToString := json_stringify env deckTermsAndDef in
     writeFile env (tmpFilePath id) quizzesToString ;;;
     let prompt := quizPrompt (length deckTermsAndDef) in
     result <- try_catch
                 (sendPromptInline env quizSchema prompt (tmpFilePath id))
                 (fun error => throw (new_Error "AI_GENERATION_FAILED")) ;;
     questionAndAnswer <- lift (quiz_of_result result) ;;
     quizId <- createQuizForDeck env
                 {| associated_deck_id := deckId;
                    created_at := timeStamp env;
                    is_deleted := false;
                    quiz_type := "multiple-choice";
                    updated_at := timeStamp env;
                    questions := [] |} ;;
     createQuestionAndAnswer env quizId questionAndAnswer ;;;
     updateDeck env deckId (timeStamp env) ;;;
     select_tail env quizId numOfQuiz
       ("Quiz creation for deck with id:" +:+ deckId +:+ " is successful")
   else ret (initial_vars (JStr deckId)))%eff.

(** Lines 167-249: the deck has a quiz; [first] is [quizzes[0]]. *)
Definition reconcile_path (env : Env) (deckId id : string) (numOfQuiz : option Z)
    (first : QuizObject) : Eff World (Vars QuizPayload) :=
  let quizId := Store.id first in
  let quizUpdateDate := updated_at (doc first) in
  (newFlashcards <- getNewFlashcards env deckId quizUpdateDate ;;
   let numOfNewFlashCards := length newFlashcards in
   if (0 <? numOfNewFlashCards)%nat then
     let quizzesToString := json_stringify env newFlashcards in
     writeFile env (tmpFilePath id) quizzesToString ;;;
     let prompt := quizPrompt (length newFlashcards) in
     result <- try_catch
                 (result <- sendPromptInline env quizSchema prompt (tmpFilePath id) ;;
                  _ <- lift (quiz_of_result result) ;;
                  ret result)
                 (fun error => throw (new_Error "AI_GENERATION_FAILED")) ;;
     questionAndAnswer <- lift (quiz_of_result result) ;;
     createQuestionAndAnswer env quizId questionAndAnswer ;;;
     updateDeck env deckId (timeStamp env) ;;;
     select_tail env quizId numOfQuiz
       ("Quiz creation for new flashcards in deck " +:+ deckId +:+ " is successful")
   else
     select_tail env quizId numOfQuiz
       "There is already a quiz made for this deck in the 'quiz' collection")%eff.

(** Lines 50-250: the body of the [try]. *)
Definition quiz_try (env : Env) (deckId id : JsVal) (numOfQuiz : option Z)
  : Eff World (Vars QuizPayload) :=
  if falsy deckId || not_a_string deckId then throw (new_Error "INVALID_DECK_ID")
  else if falsy id || not_a_string id then throw (new_Error "INVALID_USER_ID")
  else
    (deckInfo <- getDeckAndCheckField env (to_string deckId) "made_to_quiz_at" ;;
     quizzes <- getQuizByDeckIDAndQuizType env (to_string deckId) "multiple-choice" ;;
     match quizzes with
     | None | Some [] =>
         (* !quizzes || quizzes.length === 0 *)
         if exists_ deckInfo && negb (field_exists deckInfo)
         then create_path env (to_string deckId) (to_string id) numOfQuiz
         else ret (initial_vars deckId)
     | Some (first :: _) =>
         (* the first condition is false, quizzes.length >= 1 *)
         reconcile_path env (to_string deckId) (to_string id) numOfQuiz first
     end)%eff.

(** Lines 257-281: [switch (error.message)]. *)
Definition status_of_message (m : string) : option Z :=
  if decide (m = "INVALID_DECK_ID") then Some 400
  else if decide (m = "INVALID_USER_ID") then Some 400
  else if decide (m = "DECK_NOT_FOUND") then Some 404
  else if decide (m = "MISSING_MADE_TO_QUIZ_AT_FIELD") then Some 404
  else if decide (m = "NO_VALID_QUESTIONS") then Some 400
  else if decide (m = "AI_GENERATION_FAILED") then Some 502
  else None.

(** Lines 251-282: the [catch]. *)
Definition quiz_catch (error : JsError) : Vars QuizPayload :=
  match status_of_message (err_message error) with
  | Some code =>
      {| statusCode := code;
         data_ := None;
         message_ := "Quiz creation failed: " +:+ err_message error |}
  | None =>
      {| statusCode := 500;
         data_ := None;
         message_ := "A server-side error has occurred" |}
  end.

(** [geminiQuizService(deckId, id, numOfQuiz)]. *)
Definition geminiQuizService (env : Env) (deckId id : JsVal) (numOfQuiz : option Z)
    (w : World) : Response QuizPayload * World :=
  let '(r, w') := try_catch (quiz_try env deckId id numOfQuiz)
                            (fun error => ret (quiz_catch error)) w in
  let vars := match r with
              | Returned v => v
              | Thrown e => quiz_catch e   (* not reached: the catch returns *)
              end in
  ({| status := statusCode vars;
      request_owner_id := id;
      message := message_ vars;
      data := data_ vars |}, w').

End QuizService.

(* ===================================================================== *)
(** * ModerationOrchestrator and the publish-request repository          *)
(* ===================================================================== *)

Module Moderation.
Import Aggregator Store QuizService.

(** [createPublishRequest(userID, deckID, aiVerdict)]: the document. *)
Definition newRequest (timeStamp : JsVal) (userID deckID : JsVal)
    (aiVerdict : option OverallVerdict) : gmap string FieldVal :=
  <["user_id" := FVal userID]>
  (<["deck_id" := FVal deckID]>
  (<["requested_at" := FVal timeStamp]>
  (<["published_at" := FVal timeStamp]>
  (<["status" := FVal (JStr "FOR_APPROVAL")]>
  (<["mod_verdict" := FVal (JStr "PENDING")]>
  (<["ai_verdict" := FVerdict aiVerdict]> ∅)))))).

(** What Firestore stores for a document: sentinels are replaced by the
    commit time, the same for every field of one write. *)
Definition committed (w : World) (d : gmap string FieldVal) : gmap string FieldVal :=
  (fun f => match f with
            | FVal v => FVal (commit_time w v)
            | FVerdict v => FVerdict v
            end) <$> d.

(** [createPublishRequest]: [db.collection("publish_requests")
    .add(newRequest)]; the reference returned is the position of the new
    document. *)
Definition createPublishRequest (env : Env) (userID deckID : JsVal)
    (aiVerdict : option OverallVerdict) : Eff World nat :=
  call env (EvCreatePublishRequest userID deckID)
    (w <- get ;;
     modify (fun w =>
       set_publish_requests w
         (publish_requests w ++
            [committed w (newRequest (timeStamp env) userID deckID aiVerdict)])) ;;;
     ret (length (publish_requests w)))%eff.

(** [getPublishRequestByDeckId]: the first document of the deck, or
    [null]; an error of the query is logged and rethrown.  The service
    only logs the answer. *)
Definition getPublishRequestByDeckId (env : Env) (deckId : JsVal)
  : Eff World (option (gmap string FieldVal)) :=
  call env (EvGetPublishRequestByDeckId deckId)
    (w <- get ;;
     ret (head (List.filter
                  (fun d => match d !! "deck_id" with
                            | Some (FVal v) => bool_decide (v = deckId)
                            | _ => false
                            end)
                  (publish_requests w))))%eff.

(** [formatPrompt(flashcardChunk)] *)
Fixpoint join (sep : string) (l : list string) : string :=
  match l with
  | [] => ""
  | [x] => x
  | x :: rest => x +:+ sep +:+ join sep rest
  end.

Definition newline : string := String (Ascii.ascii_of_nat 10) EmptyString.

Definition formatPrompt (flashcardChunk : list Flashcard) : string :=
  join (newline +:+ newline)
    (map (fun f => "Definition: " +:+ fc_definition f +:+ newline
                   +:+ "Term: " +:+ fc_term f) flashcardChunk).

(** [result.quiz_data.overall_verdict] *)
Definition verdict_of_result (result : AiResult) : Outcome (option OverallVerdict) :=
  match result with
  | AiNullish => Thrown (TypeError "Cannot read properties of undefined (reading 'quiz_data')")
  | AiObject None =>
      Thrown (TypeError "Cannot read properties of undefined (reading 'overall_verdict')")
  | AiObject (Some (QdVerdict v)) => Returned v
  | AiObject (Some (QdQuiz _)) => Returned None
  end.

Definition moderationFilePath (id : JsVal) : string :=
  path_join "/tmp" ("moderateDeck-" +:+ to_string id +:+ ".txt").

(** Lines 42-64 of [geminiModerationService]: the body of the [try].
    The deck id is used as a document id by the deck repository. *)
Definition moderation_try (env : Env) (deckId id : JsVal) : Eff World (Vars AiResult) :=
  (let tmpFilePath := moderationFilePath id in
   deck <- getDeckById env (to_string deckId) ;;
   let deckTermsAndDef := flashcards deck in
   let deckToString := formatPrompt deckTermsAndDef in
   writeFile env tmpFilePath deckToString ;;;
   result <- sendPromptInline env moderatedFlashcardsSchema moderationPrompt tmpFilePath ;;
   overallVerdict <- lift (verdict_of_result result) ;;
   _ <- createPublishRequest env id deckId overallVerdict ;;
   _ <- getPublishRequestByDeckId env deckId ;;
   ret {| statusCode := 200;
          data_ := Some result;
          message_ := "Moderation review successful" |})%eff.

(** Lines 65-74: the [catch]. *)
Definition moderation_catch (error : JsError) : Vars AiResult :=
  {| statusCode :=
       if decide (err_message error = "DECK_NOT_FOUND") then 404
       else if decide (err_message error = "NO_VALID_FLASHCARDS") then 404
       else 500;
     data_ := None;
     message_ := "Moderation review failed: " +:+ err_message error |}.

(** [geminiModerationService(deckId, id)]. *)
Definition geminiModerationService (env : Env) (deckId id : JsVal) (w : World)
  : Response AiResult * World :=
  let '(r, w') := try_catch (moderation_try env deckId id)
                            (fun error => ret (moderation_catch error)) w in
  let vars := match r with
              | Returned v => v
              | Thrown e => moderation_catch e   (* not reached *)
              end in
  ({| status := statusCode vars;
      request_owner_id := id;
      message := message_ vars;
      data := data_ vars |}, w').

(** ** The sibling service: [cleanupTempFile] and the [finally] of
    [geminiFlashcardService] (flashcardService.js) *)

(** [cleanupTempFile(filePath)]: [fs.unlink]. *)
Definition cleanupTempFile (filePath : string) (w : World) : World :=
  set_tmp_files w (delete filePath (tmp_files w)).

End Moderation.

(* ===================================================================== *)
(** * Vocabulary of the properties                                       *)
(* ===================================================================== *)

Module Frame.
Import Shuffle Aggregator Store QuizService Moderation.

(** The world after a call has been recorded. *)
Definition log (e : Event) (w : World) : World := set_trace w (trace w ++ [e]).

(** A call which neither writes to Firestore, nor stages a file, nor
    invokes the generator. *)
Definition read_only (e : Event) : Prop :=
  is_write (op_of e) = false
  /\ is_generation (op_of e) = false
  /\ op_of e <> OpWriteFile.

(** [w'] is [w] after read-only calls: what is persisted, the staged
    files and the clock are the same. *)
Definition only_reads (w w' : World) : Prop :=
  persisted w' = persisted w
  /\ tmp_files w' = tmp_files w
  /\ now w' = now w
  /\ exists evs, trace w' = trace w ++ evs /\ Forall read_only evs.

(** No collaborator rejects with an error which carries the code of the
    count check. *)
Definition no_forged_count_error (env : Env) : Prop :=
  forall o err, faults env o = Some err -> err_name err <> "EXCEEDS_AVAILABLE_CARDS".

(** The document [createQuizForDeck] adds in the CREATE path, once the
    questions [qs] are appended. *)
Definition created_quiz (env : Env) (w : World) (deckId : string) (qs : list Question) : Quiz :=
  {| associated_deck_id := deckId;
     created_at := commit_time w (timeStamp env);
     is_deleted := false;
     quiz_type := "multiple-choice";
     updated_at := commit_time w (timeStamp env);
     questions := qs |}.

(** The deck after [updateDeck(deckId, {made_to_quiz_at: timeStamp})]. *)
Definition stamped (env : Env) (w : World) (d : Deck) : Deck :=
  {| flashcards := flashcards d;
     made_to_quiz_at := Some (commit_time w (timeStamp env)) |}.

(** The answer of the service when its [try] throws [e]. *)
Definition failure_response (id : JsVal) (e : JsError) : Response QuizPayload :=
  {| status := statusCode (quiz_catch e);
     request_owner_id := id;
     message := message_ (quiz_catch e);
     data := None |}.

(** What must have happened when the CREATE path ends in the error of the
    count check. *)
Definition create_committed (env : Env) (deckId id : string) (numOfQuiz : option Z)
    (w w' : World) : Prop :=
  exists d questionAndAnswer n,
    decks w !! deckId = Some d
    /\ made_to_quiz_at d = None
    /\ numOfQuiz = Some n
    /\ Z.of_nat (length questionAndAnswer) < n
    /\ quizzes w' = quizzes w ++ [created_quiz env w deckId questionAndAnswer]
    /\ decks w' = <[deckId := stamped env w d]> (decks w)
    /\ trace w' = trace w ++
         [ EvGetDeckAndCheckField deckId "made_to_quiz_at";
           EvGetQuizByDeckIDAndQuizType deckId "multiple-choice";
           EvGetDeckById deckId;
           EvWriteFile (tmpFilePath id) (json_stringify env (flashcards d));
           EvSendPromptInline quizSchema (quizPrompt (length (flashcards d))) (tmpFilePath id);
           EvCreateQuizForDeck deckId;
           EvCreateQuestionAndAnswer (length (quizzes w)) questionAndAnswer;
           EvUpdateDeck deckId;
           EvGetQuizByID (length (quizzes w)) ].

(** The same for the path which extends the quiz [first] of the deck. *)
Definition extend_committed (env : Env) (deckId id : string) (numOfQuiz : option Z)
    (first : QuizObject) (w w' : World) : Prop :=
  let newFlashcards := new_flashcards w deckId (updated_at (doc first)) in
  exists d questionAndAnswer n q,
    decks w !! deckId = Some d
    /\ numOfQuiz = Some n
    /\ quizzes w' !! Store.id first = Some q
    /\ Z.of_nat (length (questions q)) < n
    /\ quizzes w' = alter (fun q => set_questions q (questions q ++ questionAndAnswer))
                          (Store.id first) (quizzes w)
    /\ decks w' = <[deckId := stamped env w d]> (decks w)
    /\ trace w' = trace w ++
         [ EvGetDeckAndCheckField deckId "made_to_quiz_at";
           EvGetQuizByDeckIDAndQuizType deckId "multiple-choice";
           EvGetNewFlashcards deckId (updated_at (doc first));
           EvWriteFile (tmpFilePath id) (json_stringify env newFlashcards);
           EvSendPromptInline quizSchema (quizPrompt (length newFlashcards)) (tmpFilePath id);
           EvCreateQuestionAndAnswer (Store.id first) questionAndAnswer;
           EvUpdateDeck deckId;
           EvGetQuizByID (Store.id first) ].

(** The call which opens the RECONCILE path. *)
Definition reconciles (t : list Event) : Prop :=
  exists deckId since, In (EvGetNewFlashcards deckId since) t.

(** The answer of the moderation service when its [try] throws [e]. *)
Definition moderation_failure (id : JsVal) (e : JsError) : Response AiResult :=
  {| status := statusCode (moderation_catch e);
     request_owner_id := id;
     message := message_ (moderation_catch e);
     data := None |}.

End Frame.

(* ===================================================================== *)
(** * Scenarios                                                          *)
(* ===================================================================== *)

Module Scenario.
Import Aggregator Store QuizService.

Definition q (s : string) : Question :=
  {| question := s; related_flashcard_id := s;
     choices := [ {| text := s; is_correct := true |} ] |}.

Definition card (s : string) (t : Z) : Flashcard :=
  {| fc_id := s; fc_term := s; fc_definition := "definition of " +:+ s;
     fc_created_at := JTime t |}.

(** An environment whose generator answers [answer] and whose
    collaborators fail as [f] says. *)
Definition env_with (answer : Outcome AiResult) (f : Op -> option JsError) : Env :=
  {| faults := f;
     generate := fun _ _ _ => answer;
     rand := fun i => 0%nat;
     json_stringify := fun l => "[...]";
     timeStamp := JServerTimestamp;
     absent_is_null := false |}.

Definition no_fault : Op -> option JsError := fun _ => None.

Definition two_questions : Outcome AiResult :=
  Returned (AiObject (Some (QdQuiz (JsArray [q "n1"; q "n2"])))).

(** [quiz_data] is missing. *)
Definition no_quiz_data : Outcome AiResult := Returned (AiObject None).

Definition env_ok : Env := env_with two_questions no_fault.
Definition env_malformed : Env := env_with no_quiz_data no_fault.

Definition world (ds : gmap string Deck) (qs : list Quiz) : World :=
  {| decks := ds; quizzes := qs; publish_requests := []; tmp_files := ∅;
     now := 100; trace := [] |}.

Definition quiz_of (deckId : string) (t : Z) (qs : list Question) : Quiz :=
  {| associated_deck_id := deckId; created_at := JTime t; is_deleted := false;
     quiz_type := "multiple-choice"; updated_at := JTime t; questions := qs |}.

(** Deck "d1" has a quiz of 8 questions and no flashcard newer than it. *)
Definition w_quiz8 : World :=
  world {[ "d1" := {| flashcards := [card "a" 1; card "b" 2];
                      made_to_quiz_at := Some (JTime 50) |} ]}
        [quiz_of "d1" 50 (map q ["1"; "2"; "3"; "4"; "5"; "6"; "7"; "8"])].

(** Deck "d1" has two flashcards, no watermark and no quiz. *)
Definition w_fresh : World :=
  world {[ "d1" := {| flashcards := [card "a" 1; card "b" 2];
                      made_to_quiz_at := None |} ]} [].

(** Deck "d1" has a quiz of one question and two flashcards newer than it. *)
Definition w_new_cards : World :=
  world {[ "d1" := {| flashcards := [card "a" 1; card "b" 60; card "c" 70];
                      made_to_quiz_at := Some (JTime 50) |} ]}
        [quiz_of "d1" 50 [q "1"]].

(** Deck "d1" carries the watermark but has no quiz. *)
Definition w_inconsistent : World :=
  world {[ "d1" := {| flashcards := [card "a" 1; card "b" 60];
                      made_to_quiz_at := Some (JTime 50) |} ]} [].

(** The publish-request write is rejected. *)
Definition publish_fails (o : Op) : option JsError :=
  match o with
  | OpCreatePublishRequest => Some (new_Error "UNAVAILABLE")
  | _ => None
  end.

Definition verdict_ok : OverallVerdict :=
  {| is_appropriate := true; moderation_decision := "content is appropriate";
     flagged_cards := JsArray [] |}.

Definition moderation_answer : AiResult := AiObject (Some (QdVerdict (Some verdict_ok))).

Definition env_moderation : Env := env_with (Returned moderation_answer) no_fault.
Definition env_publish_fails : Env := env_with (Returned moderation_answer) publish_fails.

End Scenario.

(* ===================================================================== *)
(** * Batching of a deck: [chunkArray]                                   *)
(* ===================================================================== *)

Module Batching.

Section Generic.
Context {A : Type}.

(** [arr.slice(start, end)] for integers: a negative index counts from
    the end of the array, indices are clamped to the array, and an end
    which is not after the start gives the empty array. *)
Definition js_slice (l : list A) (start end_ : Z) : list A :=
  let len := Z.of_nat (length l) in
  let k := if start <? 0 then Z.max (len + start) 0 else Z.min start len in
  let final := if end_ <? 0 then Z.max (len + end_) 0 else Z.min end_ len in
  take (Z.to_nat (final - k)) (drop (Z.to_nat k) l).

(** The loop of [chunkArray]: [for (let i = 0; i < array.length; i +=
    chunkSize) chunks.push(array.slice(i, i + chunkSize))].  The loop of
    the source has no bound; [fuel] bounds the number of iterations of the
    model and [None] is "not finished within [fuel] iterations". *)
Fixpoint chunk_loop (fuel : nat) (array : list A) (chunkSize i : Z)
    (chunks : list (list A)) : option (list (list A)) :=
  if i <? Z.of_nat (length array) then
    match fuel with
    | O => None
    | S fuel' =>
        chunk_loop fuel' array chunkSize (i + chunkSize)
          (chunks ++ [js_slice array i (i + chunkSize)])
    end
  else Some chunks.

(** [chunkArray(array, chunkSize)], run for at most [fuel] iterations. *)
Definition chunkArray (fuel : nat) (array : list A) (chunkSize : Z)
  : option (list (list A)) :=
  chunk_loop fuel array chunkSize 0 [].

(** The elements of [l] from position [k * n] on, at most [n] of them. *)
Definition window (n : nat) (l : list A) (k : nat) : list A :=
  take n (drop (k * n) l).

End Generic.

End Batching.

(* ===================================================================== *)
(** * The flashcard service: [geminiFlashcardService]                    *)
(* ===================================================================== *)

Module FlashcardService.
Import Store Moderation.

(** A generated flashcard. *)
Record TermDef : Type := { td_term : string; td_definition : string }.

(** The fields of [request.body] which decide what the service does.
    [fileName], [fileExtension] and [coverPhoto] are strings or absent
    ([None] is [undefined] or [null]). *)
Record FlashBody : Type :=
  { fileName : option string;
    fileExtension : option string;
    title : JsVal;
    description : JsVal;
    coverPhoto : option string }.

(** The argument of [createDeck]. *)
Record DeckMeta : Type :=
  { dm_created_at : JsVal;
    dm_is_deleted : bool;
    dm_is_private : bool;
    dm_title : JsVal;
    dm_description : JsVal;
    flashcard_count : nat;
    owner_id : JsVal;
    cover_photo : string }.

(** What [sendPromptFlashcardGeneration] resolves to, as far as the
    service reads it: [response.data.terms_and_definitions] and
    [response.message]. *)
Inductive FlashResponse : Type :=
| FrNoData                                      (* [response.data] is undefined *)
| FrNoTerms (message : JsVal)                   (* [terms_and_definitions] is nullish *)
| FrTerms (message : JsVal) (terms : list TermDef).

(** The calls of the flashcard service to its collaborators. *)
Inductive FlashCall : Type :=
| CallDownloadFile (fileName fileExtension : string) (id : JsVal)
| CallSendPrompt (withFile : bool) (filePath : string)
| CallCreateDeck (meta : DeckMeta)
| CallCreateFlashcard (deckId : string) (flashcards : list TermDef)
| CallCleanupTempFile (filePath : string).

(** The world (of which the service touches /tmp alone) and the calls
    made so far. *)
Record FState : Type := { fworld : World; fcalls : list FlashCall }.

(** What the service does not decide: whether [s.trim()] is empty, how
    the bucket, the generator and the deck repository answer, what
    [cleanTitle] of [utils/utils.js] does, and the imported [timeStamp]. *)
Record FlashEnv : Type :=
  { blank : string -> bool;
    storage_download : string -> JsVal -> option string;
    generate_flashcards : bool -> option string -> Outcome FlashResponse;
    createDeck : DeckMeta -> Outcome string;
    createFlashcard : string -> list TermDef -> Outcome unit;
    cleanTitle : JsVal -> Outcome JsVal;
    flash_timeStamp : JsVal }.

Definition called (c : FlashCall) : Eff FState unit :=
  modify (fun st => {| fworld := fworld st; fcalls := fcalls st ++ [c] |}).

Definition on_world (f : World -> World) : Eff FState unit :=
  modify (fun st => {| fworld := f (fworld st); fcalls := fcalls st |}).

(** [path.join('/tmp', `download-${id}${fileExtension}`)]. *)
Definition download_path (id : JsVal) (fileExtension : string) : string :=
  path_join "/tmp" ("download-" +:+ to_string id +:+ fileExtension).

(** [downloadFile(fileName, fileExtension, id)] of fileRepository.js:
    every error of the download is caught and answered by the empty
    path; a download which succeeds has written the file. *)
Definition downloadFile (fenv : FlashEnv) (fileName fileExtension : string) (id : JsVal)
  : Eff FState string :=
  (called (CallDownloadFile fileName fileExtension id) ;;;
   match storage_download fenv fileName id with
   | Some content =>
       on_world (fun w => set_tmp_files w
                   (<[download_path id fileExtension := content]> (tmp_files w))) ;;;
       ret (download_path id fileExtension)
   | None => ret ""
   end)%eff.

(** [cleanupTempFile(filePath)] as the service calls it; the removal,
    which [fs.unlink] completes later, is taken at the call. *)
Definition cleanup (filePath : string) (st : FState) : FState :=
  {| fworld := cleanupTempFile filePath (fworld st);
     fcalls := fcalls st ++ [CallCleanupTempFile filePath] |}.

(** The data of an answer: [{deck_id}] or [{error, message}]. *)
Inductive FlashData : Type :=
| DeckCreated (deck_id : string)
| Failure (error message : string).

(** The answer; [f_request_owner_id] is [None] where the object has no
    such field. *)
Record FlashAnswer : Type :=
  { f_status : Z;
    f_request_owner_id : option JsVal;
    f_message : JsVal;
    f_data : FlashData }.

Definition generic_message : JsVal := JStr "An error occured during the generation of deck".

Definition missing_extension : FlashAnswer :=
  {| f_status := 422; f_request_owner_id := None; f_message := generic_message;
     f_data := Failure "MISSING_FILE_EXTENSION"
                       "File extension is a required field if file is given." |}.

Definition file_retrieval_failure : FlashAnswer :=
  {| f_status := 500; f_request_owner_id := None; f_message := generic_message;
     f_data := Failure "FILE_RETRIEVAL_FAILURE"
                       "Error retrieving the file from the server." |}.

Definition unknown_server_error (id : JsVal) : FlashAnswer :=
  {| f_status := 500; f_request_owner_id := Some id;
     f_message := JStr "An Error has occured while sending information to AI.";
     f_data := Failure "UNKNOWN_SERVER_ERROR"
                       "An unknown error was encountered. Please try again later" |}.

(** [coverPhoto ?? '...deckDefault.png...']. *)
Definition default_cover : string :=
  "https://firebasestorage.googleapis.com/v0/b/deck-f429c.appspot.com/o/deckCovers%2Fdefault%2FdeckDefault.png?alt=media&token=de6ac50d-13d0-411c-934e-fbeac5b9f6e0".

(** [response.data.terms_and_definitions]: reading the field of a
    missing [data] throws; a nullish field is read as it is. *)
Definition terms_and_definitions (response : FlashResponse)
  : Outcome (option (list TermDef)) :=
  match response with
  | FrNoData => Thrown (TypeError "Cannot read properties of undefined (reading 'terms_and_definitions')")
  | FrNoTerms _ => Returned None
  | FrTerms _ terms => Returned (Some terms)
  end.

(** [flashcards.length]: throws on a nullish [flashcards]. *)
Definition array_of (flashcards : option (list TermDef)) : Outcome (list TermDef) :=
  match flashcards with
  | Some terms => Returned terms
  | None => Thrown (TypeError "Cannot read properties of undefined (reading 'length')")
  end.

(** [response.message]. *)
Definition response_message (response : FlashResponse) : JsVal :=
  match response with
  | FrNoData => JUndefined
  | FrNoTerms message | FrTerms message _ => message
  end.

(** The object literal given to [createDeck]. *)
Definition deck_meta (fenv : FlashEnv) (body : FlashBody) (id cleaned : JsVal)
    (flashcards : list TermDef) : DeckMeta :=
  {| dm_created_at := flash_timeStamp fenv;
     dm_is_deleted := false;
     dm_is_private := true;
     dm_title := cleaned;
     dm_description := description body;
     flashcard_count := length flashcards;
     owner_id := id;
     cover_photo := default default_cover (coverPhoto body) |}.

(** Lines 74-98 and 115-139, the same text but for the arguments of the
    generator: generate, create the deck, store the flashcards, answer.
    The fields of the object literal are evaluated in their order:
    [cleanTitle(title)] before [flashcards.length]. *)
Definition generate_and_store (fenv : FlashEnv) (body : FlashBody) (id : JsVal)
    (withFile : bool) (filePath : string) : Eff FState FlashAnswer :=
  (called (CallSendPrompt withFile filePath) ;;;
   st <- get ;;
   response <- lift (generate_flashcards fenv withFile
                       (if withFile then tmp_files (fworld st) !! filePath else None)) ;;
   flashcards <- lift (terms_and_definitions response) ;;
   cleaned <- lift (cleanTitle fenv (title body)) ;;
   flashcards <- lift (array_of flashcards) ;;
   called (CallCreateDeck (deck_meta fenv body id cleaned flashcards)) ;;;
   deckId <- lift (createDeck fenv (deck_meta fenv body id cleaned flashcards)) ;;
   called (CallCreateFlashcard deckId flashcards) ;;;
   lift (createFlashcard fenv deckId flashcards) ;;;
   ret {| f_status := 200; f_request_owner_id := Some id;
          f_message := response_message response;
          f_data := DeckCreated deckId |})%eff.

(** [fileName?.trim()] and [fileExtension?.trim()] are truthy. *)
Definition given (fenv : FlashEnv) (s : option string) : bool :=
  match s with
  | Some s => negb (blank fenv s)
  | None => false
  end.

(** [geminiFlashcardService(request, id)]. *)
Definition geminiFlashcardService (fenv : FlashEnv) (body : FlashBody) (id : JsVal)
  : Eff FState FlashAnswer :=
  if given fenv (fileName body) then
    if negb (given fenv (fileExtension body)) then ret missing_extension
    else
      let name := default "" (fileName body) in
      let ext := default "" (fileExtension body) in
      fun st =>
        (* try { filePath = await downloadFile(..); .. } catch { .. }
           finally { cleanupTempFile(filePath) } *)
        let '(downloaded, st1) := downloadFile fenv name ext id st in
        let filePath := match downloaded with Returned p => p | Thrown _ => "" end in
        let '(answer, st2) :=
          try_catch
            (filePath <- lift downloaded ;;
             if decide (filePath = "") then ret file_retrieval_failure
             else generate_and_store fenv body id true filePath)%eff
            (fun error => ret (unknown_server_error id)) st1 in
        (answer, cleanup filePath st2)
  else
    try_catch (generate_and_store fenv body id false "")
              (fun error => ret (unknown_server_error id)).

End FlashcardService.

(* ===================================================================== *)
(** * Vocabulary of the effects of one call                              *)
(* ===================================================================== *)

Module Effects.
Import Shuffle Aggregator Store QuizService Moderation.

(** What one call of the quiz service for [deckId] by [id] may have done
    to the world [w] when it ends in [w']. *)
Definition quiz_effect (deckId id : string) (w w' : World) : Prop :=
  publish_requests w' = publish_requests w
  /\ now w' = now w
  /\ (tmp_files w' = tmp_files w
      \/ exists content, tmp_files w' = <[tmpFilePath id := content]> (tmp_files w))
  /\ (decks w' = decks w
      \/ exists d t,
           decks w !! deckId = Some d
           /\ decks w' = <[deckId := {| flashcards := flashcards d;
                                        made_to_quiz_at := Some t |}]> (decks w))
  /\ (quizzes w' = quizzes w
      \/ (exists first rest questionAndAnswer,
            quizzes_of_deck w deckId "multiple-choice" = first :: rest
            /\ quizzes w'
               = alter (fun q => set_questions q (questions q ++ questionAndAnswer))
                       (Store.id first) (quizzes w))
      \/ (exists q,
            quizzes_of_deck w deckId "multiple-choice" = []
            /\ associated_deck_id q = deckId
            /\ quiz_type q = "multiple-choice"
            /\ quizzes w' = quizzes w ++ [q])).

(** The two shapes of the variables when the [try] returns. *)
Definition answer_shape (v : Vars QuizPayload) : Prop :=
  (statusCode v = 200 /\ exists payload, data_ v = Some payload)
  \/ (statusCode v = 400 /\ data_ v = None).


(** No collaborator rejects with the message which reports a failure of
    the generator. *)
Definition no_forged_generation_failure (env : Env) : Prop :=
  forall o err, faults env o = Some err -> err_message err <> "AI_GENERATION_FAILED".

(** The publish request of one moderation run. *)
Definition recorded_request (env : Env) (w : World) (deckId id : JsVal)
    (verdict : option OverallVerdict) : gmap string FieldVal :=
  committed w (newRequest (timeStamp env) id deckId verdict).

(** What one call of the moderation service may have done to the world,
    and what its [try] ends with. *)
Definition moderation_effect (env : Env) (deckId id : JsVal) (w : World)
    (r : Outcome (Vars AiResult)) (w' : World) : Prop :=
  decks w' = decks w
  /\ quizzes w' = quizzes w
  /\ now w' = now w
  /\ (tmp_files w' = tmp_files w
      \/ exists content, tmp_files w' = <[moderationFilePath id := content]> (tmp_files w))
  /\ match r with
     | Returned v =>
         exists result verdict,
           v = {| statusCode := 200; data_ := Some result;
                  message_ := "Moderation review successful" |}
           /\ verdict_of_result result = Returned verdict
           /\ publish_requests w'
              = publish_requests w ++ [recorded_request env w deckId id verdict]
     | Thrown e =>
         publish_requests w' = publish_requests w
         \/ exists verdict,
              publish_requests w'
              = publish_requests w ++ [recorded_request env w deckId id verdict]
     end.

End Effects.

(* ===================================================================== *)
(** * Further scenarios                                                  *)
(* ===================================================================== *)

Module Cases.
Import Aggregator Store QuizService FlashcardService.

(** The generator fails. *)
Definition env_generation_failed : Env :=
  Scenario.env_with (Thrown (new_Error "AI_GENERATION_FAILED")) Scenario.no_fault.

(** Deck "d1" has no flashcard, no watermark and no quiz. *)
Definition w_empty_deck : World :=
  Scenario.world {[ "d1" := {| flashcards := []; made_to_quiz_at := None |} ]} [].

(** The first and only quiz of [Scenario.w_new_cards]. *)
Definition first_quiz : QuizObject :=
  {| Store.id := 0%nat; doc := Scenario.quiz_of "d1" 50 [Scenario.q "1"] |}.

(** A run of the moderation which found a card to flag. *)
Definition flagged_run : AiResponse :=
  {| Aggregator.data :=
       {| overall_verdict :=
            {| is_appropriate := false; moderation_decision := "content is inappropriate";
               flagged_cards :=
                 JsArray [ {| fl_definition := "definition of b"; fl_term := "b";
                              fl_reason := "offensive" |} ] |} |} |}.

Definition clean_run : AiResponse :=
  {| Aggregator.data := {| overall_verdict := Scenario.verdict_ok |} |}.

Definition term (s : string) : TermDef :=
  {| td_term := s; td_definition := "definition of " +:+ s |}.

(** A bucket which answers [download], a generator which gives two
    flashcards, and a repository which creates deck "deck-1" and answers
    [stored] to [createFlashcard]. *)
Definition flash_env (download : option string) (stored : Outcome unit) : FlashEnv :=
  {| blank := fun s => bool_decide (s = "");
     storage_download := fun _ _ => download;
     generate_flashcards := fun _ _ => Returned (FrTerms (JStr "done") [term "a"; term "b"]);
     createDeck := fun _ => Returned "deck-1";
     createFlashcard := fun _ _ => stored;
     cleanTitle := fun t => Returned t;
     flash_timeStamp := JServerTimestamp |}.

Definition with_file : FlashBody :=
  {| fileName := Some "notes.pdf"; fileExtension := Some ".pdf";
     title := JStr "Notes"; description := JStr "My notes"; coverPhoto := None |}.

Definition without_file : FlashBody :=
  {| fileName := None; fileExtension := None;
     title := JStr "Notes"; description := JStr "My notes"; coverPhoto := None |}.

Definition start : FState := {| fworld := Scenario.w_fresh; fcalls := [] |}.

End Cases.

(* ===================================================================== *)
(** * Properties of the shuffle and of the selection                     *)
(* ===================================================================== *)

Import Shuffle Aggregator Store QuizService Moderation Frame.

Section ShuffleFacts.
Context {A : Type}.
Implicit Types l s : list A.

Lemma swap_length l i j : length (swap l i j) = length l.
Proof.
  unfold swap. destruct (l !! i), (l !! j); try reflexivity.
  by rewrite !length_insert.
Qed.

Lemma swap_permutation l i j : swap l i j ≡ₚ l.
Proof.
  unfold swap.
  destruct (l !! i) as [x|] eqn:Hi; [|reflexivity].
  destruct (l !! j) as [y|] eqn:Hj; [|reflexivity].
  by apply Permutation_insert_swap.
Qed.

Lemma fy_loop_permutation rand i l : fy_loop rand i l ≡ₚ l.
Proof.
  revert l. induction i as [|i IH]; intros l; simpl; [reflexivity|].
  rewrite IH. apply swap_permutation.
Qed.

(** The shuffle loses and duplicates nothing. *)
Lemma fischerYatesShuffle_permutation rand l : fischerYatesShuffle rand l ≡ₚ l.
Proof. apply fy_loop_permutation. Qed.

Lemma fischerYatesShuffle_length rand l :
  length (fischerYatesShuffle rand l) = length l.
Proof. by rewrite fischerYatesShuffle_permutation. Qed.

(** [ceil_half len] is the least integer which is at least [len / 2]. *)
Lemma ceil_half_bounds (len : Z) : len <= 2 * ceil_half len <= len + 1.
Proof.
  unfold ceil_half.
  pose proof (Z_div_mod_eq_full (len + 1) 2).
  pose proof (Z.mod_pos_bound (len + 1) 2). lia.
Qed.

Lemma ceil_half_range (len : Z) : 0 <= len -> 0 <= ceil_half len <= len.
Proof. pose proof (ceil_half_bounds len). lia. Qed.

Lemma slice0_prefix s (n : Z) :
  0 <= n <= Z.of_nat (length s) -> slice0 s n = take (Z.to_nat n) s.
Proof.
  intros Hn. unfold slice0.
  destruct (n <? 0) eqn:Hneg; [lia|].
  by rewrite Z.min_l by lia.
Qed.

Lemma select_in_range s (numOfQuiz : option Z) :
  0 <= numToReturn numOfQuiz s <= Z.of_nat (length s) ->
  select s numOfQuiz = Returned (take (Z.to_nat (numToReturn numOfQuiz s)) s).
Proof.
  intros Hn. unfold select.
  destruct (Z.of_nat (length s) <? numToReturn numOfQuiz s) eqn:Hlt; [lia|].
  by rewrite slice0_prefix.
Qed.

Lemma select_exceeds s (n : Z) :
  Z.of_nat (length s) < n -> select s (Some n) = Thrown exceeds_error.
Proof.
  intros Hn. unfold select; simpl.
  destruct (Z.of_nat (length s) <? n) eqn:Hlt; [done|lia].
Qed.

(** The only error of the selection is the one of the count check, and
    it is thrown exactly when the count exceeds the length. *)
Lemma select_thrown s (numOfQuiz : option Z) (e : JsError) :
  select s numOfQuiz = Thrown e ->
  e = exceeds_error /\ exists n, numOfQuiz = Some n /\ Z.of_nat (length s) < n.
Proof.
  unfold select.
  destruct (Z.of_nat (length s) <? numToReturn numOfQuiz s) eqn:Hlt; [|done].
  intros [= <-]. split; [reflexivity|].
  destruct numOfQuiz as [n|]; simpl in Hlt.
  - exists n. split; [reflexivity|lia].
  - pose proof (ceil_half_range (Z.of_nat (length s))). lia.
Qed.

(** C5. For a shuffled list [s]: without a requested count the selection
    is the prefix of [s] of length ceil(0.5 * length s); with a requested
    count [n] between 0 and [length s] it is the first [n] elements of [s].
    [k] is the number of elements selected. *)
Theorem select_default_and_prefix s (numOfQuiz : option Z) :
  (forall n, numOfQuiz = Some n -> 0 <= n <= Z.of_nat (length s)) ->
  exists k : nat,
    select s numOfQuiz = Returned (take k s)
    /\ length (take k s) = k
    /\ match numOfQuiz with
       | None => Z.of_nat (length s) <= 2 * Z.of_nat k <= Z.of_nat (length s) + 1
       | Some n => Z.of_nat k = n
       end.
Proof.
  intros Hn.
  assert (Hr : 0 <= numToReturn numOfQuiz s <= Z.of_nat (length s)).
  { destruct numOfQuiz as [n|]; simpl; [by apply Hn|].
    apply ceil_half_range; lia. }
  exists (Z.to_nat (numToReturn numOfQuiz s)). split; [|split].
  - by apply select_in_range.
  - rewrite length_take. lia.
  - rewrite Z2Nat.id by lia.
    destruct numOfQuiz as [n|]; simpl; [reflexivity|apply ceil_half_bounds].
Qed.

End ShuffleFacts.

Lemma select_default_and_prefix_witness :
  exists k : nat,
    select [1; 2; 3; 4; 5; 6; 7] (Some 5) = Returned (take k [1; 2; 3; 4; 5; 6; 7])
    /\ length (take k [1; 2; 3; 4; 5; 6; 7]) = k
    /\ Z.of_nat k = 5.
Proof.
  apply (select_default_and_prefix [1; 2; 3; 4; 5; 6; 7] (Some 5)).
  intros n Hn. injection Hn as <-. simpl. lia.
Defined.

(** What the controller lets through is no count at all or a count
    between 5 and 50. *)
Lemma controller_limit_range (numOfQuiz : BodyNum) (limit : Z) :
  controller_limit numOfQuiz = Some (Some limit) -> 5 <= limit <= 50.
Proof.
  destruct numOfQuiz as [|[n|]]; simpl; try done.
  destruct (n <? 5) eqn:H5, (50 <? n) eqn:H50; simpl; try done.
  intros [= <-]. lia.
Qed.

(* ===================================================================== *)
(** * Properties of the aggregator                                       *)
(* ===================================================================== *)

Section AggregatorFacts.
Implicit Types rs : list AiResponse.

(** The loop of the source, read as a verdict, is the reference fold. *)
Lemma aggregate_loop_ref rs (st : AggState) :
  let st' := aggregate_loop rs st in
  {| is_appropriate := isAppropriate st';
     moderation_decision := moderationDecision st';
     flagged_cards := JsArray (inappropriateItems st') |}
  = fold_left ref_step rs
      {| is_appropriate := isAppropriate st;
         moderation_decision := moderationDecision st;
         flagged_cards := JsArray (inappropriateItems st) |}.
Proof.
  revert st. induction rs as [|r rs IH]; intros st; simpl; [reflexivity|].
  unfold ref_step at 2.
  destruct (is_appropriate (overall_verdict (Aggregator.data r))); simpl.
  - apply IH.
  - rewrite IH; simpl. f_equal. f_equal. f_equal.
    unfold flagged_items.
    destruct (flagged_cards (overall_verdict (Aggregator.data r))) as [|cards]; simpl.
    + by rewrite app_nil_r.
    + destruct cards; simpl; [by rewrite app_nil_r|reflexivity].
Qed.

Lemma fold_ref_flag rs (acc : OverallVerdict) :
  is_appropriate (fold_left ref_step rs acc)
  = is_appropriate acc
    && forallb (fun r => is_appropriate (overall_verdict (Aggregator.data r))) rs.
Proof.
  revert acc. induction rs as [|r rs IH]; intros acc; simpl.
  - by rewrite andb_true_r.
  - rewrite IH. unfold ref_step.
    destruct (is_appropriate (overall_verdict (Aggregator.data r))); simpl.
    + reflexivity.
    + by rewrite andb_false_r.
Qed.

Lemma last_cons {A} (l : list A) (a d : A) : List.last (a :: l) d = List.last l a.
Proof.
  revert a d. induction l as [|b l IH]; intros a d; [reflexivity|].
  change (List.last (b :: l) d = List.last (b :: l) a).
  by rewrite (IH b d), (IH b a).
Qed.

Lemma fold_ref_decision rs (acc : OverallVerdict) :
  moderation_decision (fold_left ref_step rs acc)
  = List.last (map moderation_decision (inappropriate rs)) (moderation_decision acc).
Proof.
  revert acc. induction rs as [|r rs IH]; intros acc; [reflexivity|].
  simpl. rewrite IH. unfold ref_step, inappropriate. simpl.
  destruct (is_appropriate (overall_verdict (Aggregator.data r))); simpl; [reflexivity|].
  symmetry. apply last_cons.
Qed.

Lemma fold_ref_flagged rs (acc : OverallVerdict) :
  flagged_cards (fold_left ref_step rs
     {| is_appropriate := is_appropriate acc;
        moderation_decision := moderation_decision acc;
        flagged_cards := JsArray (flagged_items acc) |})
  = JsArray (flagged_items acc ++ concat (map flagged_items (inappropriate rs))).
Proof.
  revert acc. induction rs as [|r rs IH]; intros acc; simpl.
  - by rewrite app_nil_r.
  - unfold ref_step at 2, inappropriate. simpl.
    destruct (is_appropriate (overall_verdict (Aggregator.data r))); simpl.
    + apply IH.
    + fold (inappropriate rs).
      specialize (IH {| is_appropriate := false;
                        moderation_decision :=
                          moderation_decision (overall_verdict (Aggregator.data r));
                        flagged_cards :=
                          JsArray (flagged_items acc
                                   ++ flagged_items (overall_verdict (Aggregator.data r))) |}).
      simpl in IH. unfold flagged_items at 1 in IH. simpl in IH.
      unfold flagged_items at 1. simpl.
      rewrite IH. unfold flagged_items at 1. simpl. by rewrite <- app_assoc.
Qed.

(** C6. The aggregator is the reference fold over the responses: the
    result is appropriate iff every response is, the decision is the one of
    the last inappropriate response (the default without any), the flagged
    cards are the concatenation, in order, of the flagged lists of the
    inappropriate responses (a list which is empty or not an array adds
    nothing) and are always an array; zero responses give the default. *)
Theorem aggregate_equals_reference_fold (aiResponses : list AiResponse) :
  let v := overall_verdict (aggregateModerationResults aiResponses) in
  v = ref_aggregate aiResponses
  /\ is_appropriate v
     = forallb (fun r => is_appropriate (overall_verdict (Aggregator.data r))) aiResponses
  /\ moderation_decision v
     = List.last (map moderation_decision (inappropriate aiResponses))
                 "Content is appropriate"
  /\ flagged_cards v
     = JsArray (concat (map flagged_items (inappropriate aiResponses)))
  /\ overall_verdict (aggregateModerationResults []) = ref_initial.
Proof.
  assert (E : overall_verdict (aggregateModerationResults aiResponses)
              = ref_aggregate aiResponses).
  { unfold aggregateModerationResults, ref_aggregate. simpl.
    apply (aggregate_loop_ref aiResponses
             {| isAppropriate := true; inappropriateItems := [];
                moderationDecision := "Content is appropriate" |}). }
  cbv zeta. rewrite E. unfold ref_aggregate.
  split; [reflexivity|]. split; [apply fold_ref_flag|].
  split; [apply fold_ref_decision|].
  split; [apply (fold_ref_flagged aiResponses ref_initial)|reflexivity].
Qed.

End AggregatorFacts.

(* ===================================================================== *)
(** * Properties of the quiz service                                     *)
(* ===================================================================== *)

(** Symbolic execution of the monadic code: unfold the combinators and
    the projections of updated worlds. *)
Ltac exec_monad :=
  unfold call, bind, get, ret, modify, throw, lift, try_catch in *;
  cbn [op_of set_trace set_decks set_quizzes set_tmp_files set_publish_requests
       decks quizzes publish_requests tmp_files now trace persisted
       fst snd falsy not_a_string to_string orb andb negb
       Store.id doc exists_ field_exists field_value] in *.

Ltac exec_calls :=
  unfold getDeckAndCheckField, getQuizByDeckIDAndQuizType, getDeckById, updateDeck,
         getNewFlashcards, createQuizForDeck, createQuestionAndAnswer, getQuizByID,
         writeFile, sendPromptInline, createPublishRequest,
         getPublishRequestByDeckId in *;
  exec_monad.

Ltac exec_quiz :=
  unfold quiz_try, create_path, reconcile_path in *;
  exec_calls;
  unfold quizzes_of_deck, new_flashcards in *;
  exec_monad.

Section QuizFacts.

Lemma only_reads_refl w : only_reads w w.
Proof. repeat split. exists []. by rewrite app_nil_r. Qed.

Lemma only_reads_trans w1 w2 w3 :
  only_reads w1 w2 -> only_reads w2 w3 -> only_reads w1 w3.
Proof.
  intros (Hp & Hf & Hn & evs & Ht & Hr) (Hp' & Hf' & Hn' & evs' & Ht' & Hr').
  repeat split; try congruence.
  exists (evs ++ evs'). split; [by rewrite Ht', Ht, app_assoc|by apply Forall_app].
Qed.

Lemma only_reads_log e w : read_only e -> only_reads w (log e w).
Proof. intros He. repeat split. exists [e]. split; [reflexivity|by constructor]. Qed.

(** The service answers with what the [catch] makes of a thrown error and
    leaves the world as the [try] left it. *)
Lemma geminiQuizService_thrown env deckId id numOfQuiz w e w' :
  quiz_try env deckId id numOfQuiz w = (Thrown e, w') ->
  geminiQuizService env deckId id numOfQuiz w = (failure_response id e, w').
Proof.
  intros H. unfold geminiQuizService, try_catch, ret. cbv beta. rewrite H.
  unfold failure_response, quiz_catch.
  by destruct (status_of_message (err_message e)).
Qed.

Lemma geminiQuizService_returned env deckId id numOfQuiz w v w' :
  quiz_try env deckId id numOfQuiz w = (Returned v, w') ->
  geminiQuizService env deckId id numOfQuiz w
  = ({| status := statusCode v; request_owner_id := id;
        message := message_ v; data := data_ v |}, w').
Proof.
  intros H. unfold geminiQuizService, try_catch, ret. cbv beta. by rewrite H.
Qed.

Lemma geminiQuizService_world env deckId id numOfQuiz w :
  snd (geminiQuizService env deckId id numOfQuiz w)
  = snd (quiz_try env deckId id numOfQuiz w).
Proof.
  unfold geminiQuizService, try_catch, ret. cbv beta.
  by destruct (quiz_try env deckId id numOfQuiz w) as [[v|e] w'].
Qed.

(** ** The shared tail *)

Lemma select_tail_spec env quizId numOfQuiz success w :
  let '(r, w') := select_tail env quizId numOfQuiz success w in
  only_reads w w'
  /\ forall v, r = Returned v ->
       exists q selectedQuizzes,
         quizzes w !! quizId = Some q
         /\ select (fischerYatesShuffle (rand env) (questions q)) numOfQuiz
            = Returned selectedQuizzes
         /\ v = {| statusCode := 200;
                   data_ := Some {| quizContent :=
                                      {| Store.id := quizId;
                                         doc := set_questions q selectedQuizzes |} |};
                   message_ := success |}.
Proof.
  assert (Hlog : only_reads w (log (EvGetQuizByID quizId) w)).
  { apply only_reads_log. by repeat split. }
  unfold select_tail. exec_calls.
  destruct (faults env OpGetQuizByID); exec_monad; [by split|].
  destruct (quizzes w !! quizId) as [q|]; exec_monad; [|by split].
  destruct (bool_decide (quiz_type q = "multiple-choice")); exec_monad; [|by split].
  destruct (select _ numOfQuiz) as [sel|e] eqn:Hsel; [|by split].
  split; [exact Hlog|]. intros v [= <-]. by exists q, sel.
Qed.

Lemma select_tail_run env quizId numOfQuiz success w q :
  faults env OpGetQuizByID = None ->
  quizzes w !! quizId = Some q ->
  quiz_type q = "multiple-choice" ->
  select_tail env quizId numOfQuiz success w
  = (match select (fischerYatesShuffle (rand env) (questions q)) numOfQuiz with
     | Returned selectedQuizzes =>
         Returned {| statusCode := 200;
                     data_ := Some {| quizContent :=
                                        {| Store.id := quizId;
                                           doc := set_questions q selectedQuizzes |} |};
                     message_ := success |}
     | Thrown e => Thrown e
     end, log (EvGetQuizByID quizId) w).
Proof.
  intros F Hq Ht. unfold select_tail. exec_calls.
  rewrite F. exec_monad. rewrite Hq, Ht.
  rewrite bool_decide_eq_true_2 by reflexivity. exec_monad.
  by destruct (select _ numOfQuiz).
Qed.

(** When the tail throws the error of the count check, the quiz was read
    back and the count exceeds its questions. *)
Lemma select_tail_exceeds env quizId numOfQuiz success w e w' :
  no_forged_count_error env ->
  select_tail env quizId numOfQuiz success w = (Thrown e, w') ->
  err_name e = "EXCEEDS_AVAILABLE_CARDS" ->
  w' = log (EvGetQuizByID quizId) w
  /\ exists q n, quizzes w !! quizId = Some q
       /\ numOfQuiz = Some n
       /\ Z.of_nat (length (questions q)) < n.
Proof.
  intros Hforge H He. unfold select_tail in H. exec_calls.
  destruct (faults env OpGetQuizByID) as [err|] eqn:F; exec_monad.
  { injection H as <- <-. by apply Hforge in F. }
  destruct (quizzes w !! quizId) as [q|]; exec_monad; [|by injection H as <- <-].
  destruct (bool_decide (quiz_type q = "multiple-choice")); exec_monad;
    [|by injection H as <- <-].
  destruct (select _ numOfQuiz) as [sel|e'] eqn:Hsel; [done|].
  injection H as <- <-. split; [reflexivity|].
  apply select_thrown in Hsel as (_ & n & -> & Hlt).
  rewrite fischerYatesShuffle_length in Hlt. by exists q, n.
Qed.



Lemma reuse_try env deckId id numOfQuiz w first rest :
  quizzes_of_deck w deckId "multiple-choice" = first :: rest ->
  new_flashcards w deckId (updated_at (doc first)) = [] ->
  let '(r, w') := quiz_try env (JStr deckId) (JStr id) numOfQuiz w in
  only_reads w w'
  /\ forall v, r = Returned v ->
       exists q selectedQuizzes,
         quizzes w !! Store.id first = Some q
         /\ select (fischerYatesShuffle (rand env) (questions q)) numOfQuiz
            = Returned selectedQuizzes
         /\ statusCode v = 200
         /\ data_ v = Some {| quizContent :=
                                {| Store.id := Store.id first;
                                   doc := set_questions q selectedQuizzes |} |}.
Proof.
  intros Hq Hnew.
  assert (R1 : read_only (EvGetDeckAndCheckField deckId "made_to_quiz_at")) by by repeat split.
  assert (R2 : read_only (EvGetQuizByDeckIDAndQuizType deckId "multiple-choice"))
    by by repeat split.
  assert (R3 : read_only (EvGetNewFlashcards deckId (updated_at (doc first))))
    by by repeat split.
  exec_quiz.
  destruct (decide (deckId = "")); exec_monad; [split; [apply only_reads_refl|done]|].
  destruct (decide (id = "")); exec_monad; [split; [apply only_reads_refl|done]|].
  destruct (faults env OpGetDeckAndCheckField); exec_monad.
  { split; [by apply only_reads_log|done]. }
  destruct (faults env OpGetQuizByDeckIDAndQuizType); exec_monad.
  { split; [|done]. eapply only_reads_trans; by apply only_reads_log. }
  rewrite Hq. exec_monad.
  assert (R : forall w3, only_reads (log (EvGetNewFlashcards deckId (updated_at (doc first)))
                 (log (EvGetQuizByDeckIDAndQuizType deckId "multiple-choice")
                    (log (EvGetDeckAndCheckField deckId "made_to_quiz_at") w))) w3 ->
              only_reads w w3).
  { intros w3. apply only_reads_trans.
    eapply only_reads_trans; [|by apply only_reads_log].
    eapply only_reads_trans; by apply only_reads_log. }
  destruct (faults env OpGetNewFlashcards); exec_monad.
  { split; [|done]. apply R, only_reads_refl. }
  rewrite Hnew. cbn [length Nat.ltb Nat.leb].
  match goal with
  | |- context [select_tail env ?i ?n ?m ?w0] =>
      pose proof (select_tail_spec env i n m w0) as Htail;
      destruct (select_tail env i n m w0) as [r w']
  end.
  destruct Htail as [Hr Hv]. split; [by apply R|].
  intros v Ev. destruct (Hv v Ev) as (q & sel & Hi & Hsel & ->).
  by exists q, sel.
Qed.

(** C7. For a deck which has a quiz and no flashcard newer than the
    quiz's last update, a call of the service only reads: it writes nothing
    to Firestore, stages no file and does not invoke the generator,
    however the collaborators behave; a second call leaves what is
    persisted as it was before the first; and the payload of a successful
    answer is the persisted quiz with its questions replaced by the
    selection, while the persisted quiz keeps all of them. *)
Theorem reuse_path_is_a_pure_read env env' deckId id numOfQuiz numOfQuiz' w first rest :
  quizzes_of_deck w deckId "multiple-choice" = first :: rest ->
  new_flashcards w deckId (updated_at (doc first)) = [] ->
  let '(r1, w1) := geminiQuizService env (JStr deckId) (JStr id) numOfQuiz w in
  let '(r2, w2) := geminiQuizService env' (JStr deckId) (JStr id) numOfQuiz' w1 in
  only_reads w w1
  /\ only_reads w1 w2
  /\ persisted w2 = persisted w
  /\ forall payload, data r1 = Some payload ->
       exists q selectedQuizzes,
         quizzes w1 !! Store.id (quizContent payload) = Some q
         /\ select (fischerYatesShuffle (rand env) (questions q)) numOfQuiz
            = Returned selectedQuizzes
         /\ doc (quizContent payload) = set_questions q selectedQuizzes.
Proof.
  intros Hq Hnew.
  pose proof (reuse_try env deckId id numOfQuiz w first rest Hq Hnew) as H1.
  destruct (quiz_try env (JStr deckId) (JStr id) numOfQuiz w) as [r w1] eqn:E1.
  destruct H1 as [Hr1 Hv1].
  assert (Hw1 : quizzes w1 = quizzes w /\ decks w1 = decks w).
  { destruct Hr1 as (Hp & _). unfold persisted in Hp. by injection Hp as -> ->. }
  destruct Hw1 as [Hqs Hds].
  assert (Hq' : quizzes_of_deck w1 deckId "multiple-choice" = first :: rest).
  { unfold quizzes_of_deck in *. by rewrite Hqs. }
  assert (Hnew' : new_flashcards w1 deckId (updated_at (doc first)) = []).
  { unfold new_flashcards in *. by rewrite Hds. }
  pose proof (reuse_try env' deckId id numOfQuiz' w1 first rest Hq' Hnew') as H2.
  assert (G1 : geminiQuizService env (JStr deckId) (JStr id) numOfQuiz w
               = (match r with
                  | Returned v => {| status := statusCode v; request_owner_id := JStr id;
                                     message := message_ v; data := data_ v |}
                  | Thrown e => failure_response (JStr id) e
                  end, w1)).
  { destruct r; [by apply geminiQuizService_returned|by apply geminiQuizService_thrown]. }
  rewrite G1.
  pose proof (geminiQuizService_world env' (JStr deckId) (JStr id) numOfQuiz' w1) as G2.
  destruct (geminiQuizService env' (JStr deckId) (JStr id) numOfQuiz' w1) as [r2 w2].
  destruct (quiz_try env' (JStr deckId) (JStr id) numOfQuiz' w1) as [r' w2'].
  cbn [snd] in G2. subst w2'. destruct H2 as [Hr2 _].
  split; [exact Hr1|]. split; [exact Hr2|]. split.
  { destruct Hr2 as (-> & _). by destruct Hr1 as (-> & _). }
  intros payload Hp. destruct r as [v|e]; [|done].
  cbn [data] in Hp.
  destruct (Hv1 v eq_refl) as (q & sel & Hi & Hsel & _ & Hd).
  rewrite Hd in Hp. injection Hp as <-. cbn [quizContent Store.id doc].
  exists q, sel. by rewrite Hqs.
Qed.
End QuizFacts.

Lemma reuse_path_is_a_pure_read_witness :
  let w := Scenario.w_quiz8 in
  let '(r1, w1) := geminiQuizService Scenario.env_ok (JStr "d1") (JStr "u1") (Some 5) w in
  let '(r2, w2) := geminiQuizService Scenario.env_ok (JStr "d1") (JStr "u1") None w1 in
  only_reads w w1
  /\ only_reads w1 w2
  /\ persisted w2 = persisted w
  /\ forall payload, data r1 = Some payload ->
       exists q selectedQuizzes,
         quizzes w1 !! Store.id (quizContent payload) = Some q
         /\ select (fischerYatesShuffle (rand Scenario.env_ok) (questions q)) (Some 5)
            = Returned selectedQuizzes
         /\ doc (quizContent payload) = set_questions q selectedQuizzes.
Proof.
  apply (reuse_path_is_a_pure_read Scenario.env_ok Scenario.env_ok "d1" "u1"
           (Some 5) None Scenario.w_quiz8
           {| Store.id := 0%nat;
              doc := Scenario.quiz_of "d1" 50
                       (map Scenario.q ["1"; "2"; "3"; "4"; "5"; "6"; "7"; "8"]) |}
           []); reflexivity.
Defined.

(** C1 (as the code behaves). When the count check throws, the answer of
    the service is status 500 with the generic message, not 400: the
    [switch] reads [error.message], the code of the error is in
    [error.name]. *)
Theorem exceeded_count_is_answered_500 env deckId id numOfQuiz w w' :
  quiz_try env deckId id numOfQuiz w = (Thrown exceeds_error, w') ->
  geminiQuizService env deckId id numOfQuiz w
  = ({| status := 500;
        request_owner_id := id;
        message := "A server-side error has occurred";
        data := None |}, w').
Proof. intros H. by rewrite (geminiQuizService_thrown _ _ _ _ _ _ _ H). Qed.

Lemma exceeded_count_is_answered_500_witness :
  geminiQuizService Scenario.env_ok (JStr "d1") (JStr "u1") (Some 20) Scenario.w_quiz8
  = ({| status := 500;
        request_owner_id := JStr "u1";
        message := "A server-side error has occurred";
        data := None |},
     log (EvGetQuizByID 0%nat)
       (log (EvGetNewFlashcards "d1" (JTime 50))
          (log (EvGetQuizByDeckIDAndQuizType "d1" "multiple-choice")
             (log (EvGetDeckAndCheckField "d1" "made_to_quiz_at") Scenario.w_quiz8)))).
Proof.
  apply exceeded_count_is_answered_500. vm_compute. reflexivity.
Defined.

(** The same answer on the other two paths: a fresh deck whose two
    flashcards give two questions, and a quiz of one question extended by
    two, each asked for five. *)
Lemma exceeded_count_on_create_path :
  fst (geminiQuizService Scenario.env_ok (JStr "d1") (JStr "u1") (Some 5) Scenario.w_fresh)
  = {| status := 500;
       request_owner_id := JStr "u1";
       message := "A server-side error has occurred";
       data := None |}.
Proof. vm_compute. reflexivity. Qed.

Lemma exceeded_count_on_extend_path :
  fst (geminiQuizService Scenario.env_ok (JStr "d1") (JStr "u1") (Some 5)
         Scenario.w_new_cards)
  = {| status := 500;
       request_owner_id := JStr "u1";
       message := "A server-side error has occurred";
       data := None |}.
Proof. vm_compute. reflexivity. Qed.

(** C3 (amended). For a deck which carries [made_to_quiz_at] and has no
    multiple-choice quiz, when the two reads succeed, the service takes
    neither branch: it makes no further call and answers with the values
    its variables start with, status 400 and no data. *)
Theorem watermark_without_quiz_takes_no_path env deckId id numOfQuiz w d t :
  deckId <> "" -> id <> "" ->
  faults env OpGetDeckAndCheckField = None ->
  faults env OpGetQuizByDeckIDAndQuizType = None ->
  decks w !! deckId = Some d ->
  made_to_quiz_at d = Some t ->
  quizzes_of_deck w deckId "multiple-choice" = [] ->
  geminiQuizService env (JStr deckId) (JStr id) numOfQuiz w
  = ({| status := 400;
        request_owner_id := JStr id;
        message := "Quiz creation for deck with id:" +:+ deckId +:+ " is unsuccessful";
        data := None |},
     log (EvGetQuizByDeckIDAndQuizType deckId "multiple-choice")
       (log (EvGetDeckAndCheckField deckId "made_to_quiz_at") w)).
Proof.
  intros Hd Hi F1 F2 Hdeck Hmark Hq.
  apply (geminiQuizService_returned _ _ _ _ _ (initial_vars (JStr deckId))).
  exec_quiz.
  destruct (decide (deckId = "")); [done|]. destruct (decide (id = "")); [done|].
  exec_monad. rewrite F1. exec_monad. rewrite F2. exec_monad.
  rewrite Hq, Hdeck, Hmark. exec_monad.
  by destruct (absent_is_null env).
Qed.

Lemma watermark_without_quiz_takes_no_path_witness :
  geminiQuizService Scenario.env_ok (JStr "d1") (JStr "u1") None Scenario.w_inconsistent
  = ({| status := 400;
        request_owner_id := JStr "u1";
        message := "Quiz creation for deck with id:" +:+ "d1" +:+ " is unsuccessful";
        data := None |},
     log (EvGetQuizByDeckIDAndQuizType "d1" "multiple-choice")
       (log (EvGetDeckAndCheckField "d1" "made_to_quiz_at") Scenario.w_inconsistent)).
Proof.
  apply (watermark_without_quiz_takes_no_path Scenario.env_ok "d1" "u1" None
           Scenario.w_inconsistent
           {| flashcards := [Scenario.card "a" 1; Scenario.card "b" 60];
              made_to_quiz_at := Some (JTime 50) |} (JTime 50));
    try reflexivity; discriminate.
Defined.

(** C3 (as stated) fails: in the inconsistent state no call of the
    RECONCILE path is made and the answer is not a success. *)
Lemma watermark_without_quiz_is_not_reconciled :
  let w := Scenario.w_inconsistent in
  let '(r, w') := geminiQuizService Scenario.env_ok (JStr "d1") (JStr "u1") None w in
  (exists d t, decks w !! "d1" = Some d /\ made_to_quiz_at d = Some t)
  /\ quizzes_of_deck w "d1" "multiple-choice" = []
  /\ ~ reconciles (trace w')
  /\ status r = 400 /\ data r = None.
Proof.
  vm_compute. split; [eauto|]. split; [reflexivity|]. split; [|done].
  intros (d & s & [H|[H|[]]]); discriminate.
Qed.

(** The errors of a result of the wrong shape are not in the [switch]. *)
Lemma quiz_of_result_unclassified result e :
  quiz_of_result result = Thrown e -> status_of_message (err_message e) = None.
Proof.
  destruct result as [|[[[|quiz]|v]|]]; simpl; intros [= <-]; reflexivity.
Qed.

Lemma nonempty_length {A} (l : list A) : l <> [] -> (0 <? length l)%nat = true.
Proof. destruct l; [done|reflexivity]. Qed.

(** C2 (as the code behaves). On the CREATE path a generation result of
    the wrong shape is answered with status 500: the "Invalid AI response"
    error is thrown outside the inner [try] and is not in the [switch]. *)
Theorem create_path_malformed_result_is_500 env deckId id numOfQuiz w d result e :
  (forall o, faults env o = None) ->
  deckId <> "" -> id <> "" ->
  decks w !! deckId = Some d ->
  made_to_quiz_at d = None ->
  flashcards d <> [] ->
  quizzes_of_deck w deckId "multiple-choice" = [] ->
  generate env quizSchema (quizPrompt (length (flashcards d)))
           (Some (json_stringify env (flashcards d))) = Returned result ->
  quiz_of_result result = Thrown e ->
  fst (geminiQuizService env (JStr deckId) (JStr id) numOfQuiz w)
  = {| status := 500;
       request_owner_id := JStr id;
       message := "A server-side error has occurred";
       data := None |}.
Proof.
  intros Hnf Hd Hi Hdeck Hmark Hcards Hq Hgen Hshape.
  assert (Htry : exists w', quiz_try env (JStr deckId) (JStr id) numOfQuiz w = (Thrown e, w')).
  { exec_quiz.
    destruct (decide (deckId = "")); [done|]. destruct (decide (id = "")); [done|].
    exec_monad. rewrite !Hnf. exec_monad.
    rewrite Hq, Hdeck, Hmark.
    destruct (absent_is_null env); exec_monad; rewrite Hdeck; exec_monad;
      rewrite (nonempty_length _ Hcards); exec_monad;
      rewrite lookup_insert_eq, Hgen, Hshape; eauto. }
  destruct Htry as [w' Htry].
  rewrite (geminiQuizService_thrown _ _ _ _ _ _ _ Htry).
  unfold failure_response, quiz_catch.
  by rewrite (quiz_of_result_unclassified _ _ Hshape).
Qed.

Lemma create_path_malformed_result_is_500_witness :
  fst (geminiQuizService Scenario.env_malformed (JStr "d1") (JStr "u1") None Scenario.w_fresh)
  = {| status := 500;
       request_owner_id := JStr "u1";
       message := "A server-side error has occurred";
       data := None |}.
Proof.
  apply (create_path_malformed_result_is_500 Scenario.env_malformed "d1" "u1" None
           Scenario.w_fresh
           {| flashcards := [Scenario.card "a" 1; Scenario.card "b" 2];
              made_to_quiz_at := None |}
           (AiObject None) invalid_ai_response);
    try reflexivity; discriminate.
Defined.

(** The sibling path maps the same result to AI_GENERATION_FAILED. *)
Lemma extend_path_malformed_result_is_502 env deckId id numOfQuiz w first rest result e :
  (forall o, faults env o = None) ->
  deckId <> "" -> id <> "" ->
  quizzes_of_deck w deckId "multiple-choice" = first :: rest ->
  new_flashcards w deckId (updated_at (doc first)) <> [] ->
  generate env quizSchema
           (quizPrompt (length (new_flashcards w deckId (updated_at (doc first)))))
           (Some (json_stringify env (new_flashcards w deckId (updated_at (doc first)))))
  = Returned result ->
  quiz_of_result result = Thrown e ->
  fst (geminiQuizService env (JStr deckId) (JStr id) numOfQuiz w)
  = {| status := 502;
       request_owner_id := JStr id;
       message := "Quiz creation failed: AI_GENERATION_FAILED";
       data := None |}.
Proof.
  intros Hnf Hd Hi Hq Hnew Hgen Hshape.
  assert (Htry : exists w', quiz_try env (JStr deckId) (JStr id) numOfQuiz w
                            = (Thrown (new_Error "AI_GENERATION_FAILED"), w')).
  { exec_quiz.
    destruct (decide (deckId = "")); [done|]. destruct (decide (id = "")); [done|].
    exec_monad. rewrite !Hnf. exec_monad. rewrite Hq. exec_monad.
    rewrite (nonempty_length _ Hnew). exec_monad.
    rewrite lookup_insert_eq, Hgen, Hshape. eauto. }
  destruct Htry as [w' Htry].
  by rewrite (geminiQuizService_thrown _ _ _ _ _ _ _ Htry).
Qed.

Lemma alter_last {A} (f : A -> A) (l : list A) (x : A) :
  alter f (length l) (l ++ [x]) = l ++ [f x].
Proof.
  rewrite <- (Nat.add_0_r (length l)). by rewrite alter_app_r.
Qed.

Lemma lookup_last {A} (l : list A) (x : A) : (l ++ [x]) !! length l = Some x.
Proof. by rewrite lookup_app_r, Nat.sub_diag by lia. Qed.

Lemma quiz_of_result_not_count_error result e :
  quiz_of_result result = Thrown e -> err_name e <> "EXCEEDS_AVAILABLE_CARDS".
Proof.
  destruct result as [|[[[|quiz]|v]|]]; simpl; intros [= <-]; discriminate.
Qed.

Ltac thrown_elsewhere H Hforge He :=
  first
    [ injection H as <- <-; discriminate He
    | injection H as <- <-;
      match goal with F : faults _ _ = Some _ |- _ => by apply Hforge in F end ].

Ltac exec_records :=
  cbn [associated_deck_id created_at is_deleted quiz_type updated_at questions
       flashcards made_to_quiz_at] in *.

Lemma create_path_exceeds env deckId id numOfQuiz w e w' :
  no_forged_count_error env ->
  create_path env deckId id numOfQuiz w = (Thrown e, w') ->
  err_name e = "EXCEEDS_AVAILABLE_CARDS" ->
  exists d questionAndAnswer n,
    decks w !! deckId = Some d
    /\ numOfQuiz = Some n
    /\ Z.of_nat (length questionAndAnswer) < n
    /\ quizzes w' = quizzes w ++ [created_quiz env w deckId questionAndAnswer]
    /\ decks w' = <[deckId := stamped env w d]> (decks w)
    /\ trace w' = trace w ++
         [ EvGetDeckById deckId;
           EvWriteFile (tmpFilePath id) (json_stringify env (flashcards d));
           EvSendPromptInline quizSchema (quizPrompt (length (flashcards d))) (tmpFilePath id);
           EvCreateQuizForDeck deckId;
           EvCreateQuestionAndAnswer (length (quizzes w)) questionAndAnswer;
           EvUpdateDeck deckId;
           EvGetQuizByID (length (quizzes w)) ].
Proof.
  intros Hforge H He. unfold create_path in H. exec_calls.
  destruct (faults env OpGetDeckById) eqn:F1; exec_monad;
    [thrown_elsewhere H Hforge He|].
  destruct (decks w !! deckId) as [d|] eqn:Hdeck; exec_monad;
    [|thrown_elsewhere H Hforge He].
  destruct (0 <? length (flashcards d))%nat; exec_monad; [|done].
  destruct (faults env OpWriteFile) eqn:F2; exec_monad;
    [thrown_elsewhere H Hforge He|].
  destruct (faults env OpSendPromptInline) eqn:F3; exec_monad;
    [thrown_elsewhere H Hforge He|].
  destruct (generate env _ _ _) as [result|err]; exec_monad;
    [|thrown_elsewhere H Hforge He].
  destruct (quiz_of_result result) as [qs|err] eqn:Hshape; exec_monad.
  2:{ injection H as <- <-. by apply quiz_of_result_not_count_error in Hshape. }
  destruct (faults env OpCreateQuizForDeck) eqn:F4; exec_monad;
    [thrown_elsewhere H Hforge He|].
  destruct (faults env OpCreateQuestionAndAnswer) eqn:F5; exec_monad;
    [thrown_elsewhere H Hforge He|].
  destruct (faults env OpUpdateDeck) eqn:F6; exec_monad;
    [thrown_elsewhere H Hforge He|].
  rewrite Hdeck in H. exec_monad. exec_records.
  rewrite alter_last in H.
  apply select_tail_exceeds in H as (-> & q & n & Hq & -> & Hlt); [|done..].
  exec_monad. rewrite lookup_last in Hq. injection Hq as <-.
  unfold set_questions in Hlt. exec_records. 
  exists d, qs, n. unfold log. exec_monad.
  repeat split; try done.
  by rewrite <- !app_assoc.
Qed.

Lemma reconcile_path_exceeds env deckId id numOfQuiz first w e w' :
  no_forged_count_error env ->
  reconcile_path env deckId id numOfQuiz first w = (Thrown e, w') ->
  err_name e = "EXCEEDS_AVAILABLE_CARDS" ->
  new_flashcards w deckId (updated_at (doc first)) <> [] ->
  let newFlashcards := new_flashcards w deckId (updated_at (doc first)) in
  exists d questionAndAnswer n q,
    decks w !! deckId = Some d
    /\ numOfQuiz = Some n
    /\ quizzes w' !! Store.id first = Some q
    /\ Z.of_nat (length (questions q)) < n
    /\ quizzes w' = alter (fun q => set_questions q (questions q ++ questionAndAnswer))
                          (Store.id first) (quizzes w)
    /\ decks w' = <[deckId := stamped env w d]> (decks w)
    /\ trace w' = trace w ++
         [ EvGetNewFlashcards deckId (updated_at (doc first));
           EvWriteFile (tmpFilePath id) (json_stringify env newFlashcards);
           EvSendPromptInline quizSchema (quizPrompt (length newFlashcards)) (tmpFilePath id);
           EvCreateQuestionAndAnswer (Store.id first) questionAndAnswer;
           EvUpdateDeck deckId;
           EvGetQuizByID (Store.id first) ].
Proof.
  intros Hforge H He Hnew. unfold reconcile_path in H. exec_calls.
  destruct (faults env OpGetNewFlashcards) eqn:F1; exec_monad;
    [thrown_elsewhere H Hforge He|].
  replace (new_flashcards (set_trace w _) deckId (updated_at (doc first)))
    with (new_flashcards w deckId (updated_at (doc first))) in H by reflexivity.
  cbv zeta.
  set (newFlashcards := new_flashcards w deckId (updated_at (doc first))) in *.
  rewrite (nonempty_length _ Hnew) in H. exec_monad.
  destruct (faults env OpWriteFile) eqn:F2; exec_monad;
    [thrown_elsewhere H Hforge He|].
  destruct (faults env OpSendPromptInline) eqn:F3; exec_monad;
    [thrown_elsewhere H Hforge He|].
  destruct (generate env _ _ _) as [result|err]; exec_monad;
    [|thrown_elsewhere H Hforge He].
  destruct (quiz_of_result result) as [qs|err] eqn:Hshape; exec_monad;
    [|thrown_elsewhere H Hforge He].
  rewrite Hshape in H. exec_monad.
  destruct (faults env OpCreateQuestionAndAnswer) eqn:F5; exec_monad;
    [thrown_elsewhere H Hforge He|].
  destruct (faults env OpUpdateDeck) eqn:F6; exec_monad;
    [thrown_elsewhere H Hforge He|].
  destruct (decks w !! deckId) as [d|] eqn:Hdeck; exec_monad;
    [|thrown_elsewhere H Hforge He].
  apply select_tail_exceeds in H as (-> & q & n & Hq & -> & Hlt); [|done..].
  exec_monad.
  exists d, qs, n, q. unfold log. exec_monad.
  repeat split; try done.
  by rewrite <- !app_assoc.
Qed.

(** C4. Whenever the [try] of the service ends in the error of the count
    check on the CREATE path or on the path which extends a quiz, the quiz
    creation (CREATE only), the append of the generated questions and the
    update of the watermark had been performed before the quiz was read
    back for the check, in this order and with nothing after; the service
    answers from the world in which they are committed. *)
Theorem count_check_follows_the_mutations env deckId id numOfQuiz w e w' :
  no_forged_count_error env ->
  quiz_try env (JStr deckId) (JStr id) numOfQuiz w = (Thrown e, w') ->
  err_name e = "EXCEEDS_AVAILABLE_CARDS" ->
  geminiQuizService env (JStr deckId) (JStr id) numOfQuiz w
  = (failure_response (JStr id) e, w')
  /\ match quizzes_of_deck w deckId "multiple-choice" with
     | [] => create_committed env deckId id numOfQuiz w w'
     | first :: _ =>
         new_flashcards w deckId (updated_at (doc first)) <> [] ->
         extend_committed env deckId id numOfQuiz first w w'
     end.
Proof.
  intros Hforge H He. split; [by apply geminiQuizService_thrown|].
  unfold quiz_try in H. exec_calls.
  destruct (decide (deckId = "")) as [|Hd]; exec_monad; [thrown_elsewhere H Hforge He|].
  destruct (decide (id = "")) as [|Hid]; exec_monad; [thrown_elsewhere H Hforge He|].
  destruct (faults env OpGetDeckAndCheckField) eqn:F1; exec_monad;
    [thrown_elsewhere H Hforge He|].
  destruct (faults env OpGetQuizByDeckIDAndQuizType) eqn:F2; exec_monad;
    [thrown_elsewhere H Hforge He|].
  replace (quizzes_of_deck (set_trace _ _) deckId "multiple-choice")
    with (quizzes_of_deck w deckId "multiple-choice") in H by reflexivity.
  destruct (quizzes_of_deck w deckId "multiple-choice") as [|first rest] eqn:Hq.
  - assert (Hc : exists d, decks w !! deckId = Some d /\ made_to_quiz_at d = None
                   /\ create_path env deckId id numOfQuiz
                        (log (EvGetQuizByDeckIDAndQuizType deckId "multiple-choice")
                           (log (EvGetDeckAndCheckField deckId "made_to_quiz_at") w))
                      = (Thrown e, w')).
    { destruct (decks w !! deckId) as [d|]; exec_monad.
      - exists d. destruct (made_to_quiz_at d); exec_monad;
          destruct (absent_is_null env); exec_monad; done.
      - destruct (absent_is_null env); exec_monad; done. }
    destruct Hc as (d & Hdeck & Hmark & Hc).
    apply create_path_exceeds in Hc
      as (d' & qs & n & Hdeck' & -> & Hlt & Hqs & Hds & Htr); [|done..].
    unfold log in *. exec_monad. rewrite Hdeck in Hdeck'. injection Hdeck' as <-.
    exists d, qs, n. repeat split; try done.
    rewrite Htr. by rewrite <- !app_assoc.
  - intros Hnew. exec_monad.
    apply reconcile_path_exceeds in H
      as (d & qs & n & q & Hdeck & -> & Hi & Hlt & Hqs & Hds & Htr); [|done..].
    unfold log in *. exec_monad.
    exists d, qs, n, q. repeat split; try done.
    rewrite Htr. by rewrite <- !app_assoc.
Qed.

Lemma count_check_follows_the_mutations_witness :
  create_committed Scenario.env_ok "d1" "u1" (Some 5) Scenario.w_fresh
    (snd (quiz_try Scenario.env_ok (JStr "d1") (JStr "u1") (Some 5) Scenario.w_fresh)).
Proof.
  refine (proj2 (count_check_follows_the_mutations Scenario.env_ok "d1" "u1" (Some 5)
                   Scenario.w_fresh exceeds_error _ _ _ _)).
  - intros o err H. discriminate H.
  - vm_compute. reflexivity.
  - reflexivity.
Defined.

(* ===================================================================== *)
(** * Properties of the moderation service and of the publish requests   *)
(* ===================================================================== *)

Lemma geminiModerationService_thrown env deckId id w e w' :
  moderation_try env deckId id w = (Thrown e, w') ->
  geminiModerationService env deckId id w = (moderation_failure id e, w').
Proof.
  intros H. unfold geminiModerationService, try_catch, ret. cbv beta. by rewrite H.
Qed.

Lemma geminiModerationService_returned env deckId id w v w' :
  moderation_try env deckId id w = (Returned v, w') ->
  geminiModerationService env deckId id w
  = ({| status := statusCode v; request_owner_id := id;
        message := message_ v; data := data_ v |}, w').
Proof.
  intros H. unfold geminiModerationService, try_catch, ret. cbv beta. by rewrite H.
Qed.

(** C10. Every document [createPublishRequest] adds to 'publish_requests'
    has [published_at], set to the same value as [requested_at] (the
    imported [timeStamp], which Firestore resolves to one commit time),
    while [status] is "FOR_APPROVAL" and [mod_verdict] is "PENDING"; a
    rejected write adds nothing. *)
Theorem published_at_is_set_with_requested_at env userID deckID aiVerdict w :
  match createPublishRequest env userID deckID aiVerdict w with
  | (Returned ref, w') =>
      exists d,
        publish_requests w' = publish_requests w ++ [d]
        /\ publish_requests w' !! ref = Some d
        /\ d !! "published_at" = Some (FVal (commit_time w (timeStamp env)))
        /\ d !! "requested_at" = d !! "published_at"
        /\ d !! "status" = Some (FVal (JStr "FOR_APPROVAL"))
        /\ d !! "mod_verdict" = Some (FVal (JStr "PENDING"))
  | (Thrown _, w') => publish_requests w' = publish_requests w
  end.
Proof.
  exec_calls. destruct (faults env OpCreatePublishRequest); exec_monad; [reflexivity|].
  eexists. split; [reflexivity|]. split; [apply lookup_last|].
  unfold committed, newRequest. rewrite !lookup_fmap.
  repeat split; by vm_compute.
Qed.

(** C8 (amended). The publish-request write is awaited inside the [try]:
    once the deck is read and the generator has answered with a verdict,
    the response is the success envelope with the raw result when the
    write and the read-back succeed, and the failure envelope of the
    rejection when either of them fails; the reference the write returns
    is not used. *)
Theorem moderation_response_depends_on_publish_write env deckId id w d result v :
  faults env OpGetDeckById = None ->
  faults env OpWriteFile = None ->
  faults env OpSendPromptInline = None ->
  decks w !! to_string deckId = Some d ->
  generate env moderatedFlashcardsSchema moderationPrompt
           (Some (formatPrompt (flashcards d))) = Returned result ->
  verdict_of_result result = Returned v ->
  fst (geminiModerationService env deckId id w)
  = match faults env OpCreatePublishRequest with
    | Some e => moderation_failure id e
    | None =>
        match faults env OpGetPublishRequestByDeckId with
        | Some e => moderation_failure id e
        | None => {| status := 200;
                     request_owner_id := id;
                     message := "Moderation review successful";
                     data := Some result |}
        end
    end.
Proof.
  intros F1 F2 F3 Hdeck Hgen Hv.
  assert (Htry : exists w',
            moderation_try env deckId id w
            = (match faults env OpCreatePublishRequest with
               | Some e => Thrown e
               | None =>
                   match faults env OpGetPublishRequestByDeckId with
                   | Some e => Thrown e
                   | None => Returned {| statusCode := 200;
                                         data_ := Some result;
                                         message_ := "Moderation review successful" |}
                   end
               end, w')).
  { unfold moderation_try. exec_calls.
    rewrite F1. exec_monad. rewrite Hdeck. exec_monad.
    rewrite F2. exec_monad. rewrite F3. exec_monad.
    rewrite lookup_insert_eq, Hgen, Hv. exec_monad.
    destruct (faults env OpCreatePublishRequest); exec_monad; [eauto|].
    destruct (faults env OpGetPublishRequestByDeckId); exec_monad; eauto. }
  destruct Htry as [w' Htry].
  destruct (faults env OpCreatePublishRequest).
  { by rewrite (geminiModerationService_thrown _ _ _ _ _ _ Htry). }
  destruct (faults env OpGetPublishRequestByDeckId).
  { by rewrite (geminiModerationService_thrown _ _ _ _ _ _ Htry). }
  by rewrite (geminiModerationService_returned _ _ _ _ _ _ Htry).
Qed.

Lemma moderation_response_depends_on_publish_write_witness :
  fst (geminiModerationService Scenario.env_publish_fails (JStr "d1") (JStr "u1")
         Scenario.w_fresh)
  = moderation_failure (JStr "u1") (new_Error "UNAVAILABLE").
Proof.
  apply (moderation_response_depends_on_publish_write Scenario.env_publish_fails
           (JStr "d1") (JStr "u1") Scenario.w_fresh
           {| flashcards := [Scenario.card "a" 1; Scenario.card "b" 2];
              made_to_quiz_at := None |}
           Scenario.moderation_answer (Some Scenario.verdict_ok));
    reflexivity.
Defined.

(** C8 (as stated) fails: two environments which differ in the outcome of
    the publish-request write alone give different responses. *)
Lemma publish_failure_changes_the_moderation_response :
  fst (geminiModerationService Scenario.env_moderation (JStr "d1") (JStr "u1")
         Scenario.w_fresh)
  = {| status := 200;
       request_owner_id := JStr "u1";
       message := "Moderation review successful";
       data := Some Scenario.moderation_answer |}
  /\ fst (geminiModerationService Scenario.env_publish_fails (JStr "d1") (JStr "u1")
            Scenario.w_fresh)
     = {| status := 500;
          request_owner_id := JStr "u1";
          message := "Moderation review failed: UNAVAILABLE";
          data := None |}.
Proof. split; vm_compute; reflexivity. Qed.

(** The sibling service removes its file in a [finally]. *)
Lemma cleanupTempFile_removes filePath w :
  tmp_files (cleanupTempFile filePath w) !! filePath = None.
Proof. unfold cleanupTempFile. exec_monad. apply lookup_delete_eq. Qed.

(** C9 (as the code behaves). After a call on the CREATE path of the quiz
    service, and after a call of the moderation service, the file which
    staged the flashcards is still in /tmp, whatever the generator
    answered: neither service removes it. *)
Theorem staged_file_is_left_behind env deckId id numOfQuiz w d :
  (forall o, faults env o = None) ->
  deckId <> "" -> id <> "" ->
  decks w !! deckId = Some d ->
  made_to_quiz_at d = None ->
  flashcards d <> [] ->
  quizzes_of_deck w deckId "multiple-choice" = [] ->
  tmp_files (snd (geminiQuizService env (JStr deckId) (JStr id) numOfQuiz w))
    !! tmpFilePath id = Some (json_stringify env (flashcards d))
  /\ tmp_files (snd (geminiModerationService env (JStr deckId) (JStr id) w))
       !! moderationFilePath (JStr id) = Some (formatPrompt (flashcards d)).
Proof.
  intros Hnf Hd Hi Hdeck Hmark Hcards Hq. split.
  - rewrite geminiQuizService_world. exec_quiz.
    destruct (decide (deckId = "")); [done|]. destruct (decide (id = "")); [done|].
    exec_monad. rewrite !Hnf. exec_monad. rewrite Hq, Hdeck, Hmark.
    assert (Hfile : forall w1 : World,
              tmp_files w1 !! tmpFilePath id = Some (json_stringify env (flashcards d)) ->
              forall quizId success,
              tmp_files (snd (select_tail env quizId numOfQuiz success w1)) !! tmpFilePath id
              = Some (json_stringify env (flashcards d))).
    { intros w1 H1 quizId success.
      pose proof (select_tail_spec env quizId numOfQuiz success w1) as Hs.
      destruct (select_tail env quizId numOfQuiz success w1) as [r w2].
      destruct Hs as [(_ & Ht & _) _]. cbn [snd]. by rewrite Ht. }
    destruct (absent_is_null env); exec_monad; rewrite Hdeck; exec_monad;
      rewrite (nonempty_length _ Hcards); exec_monad;
      rewrite lookup_insert_eq;
      (destruct (generate env _ _ _) as [result|err]; exec_monad;
       [|apply lookup_insert_eq]);
      (destruct (quiz_of_result result) as [qs|err]; exec_monad;
       [|apply lookup_insert_eq]);
      rewrite Hdeck; exec_monad;
      match goal with
      | |- context [select_tail env ?i ?n ?m ?w0] =>
          pose proof (Hfile w0 (lookup_insert_eq _ _ _) i m) as Hf;
          destruct (select_tail env i n m w0) as [[v|e] w2]; exact Hf
      end.
  - unfold geminiModerationService, moderation_try, try_catch. exec_calls.
    rewrite !Hnf. exec_monad. rewrite Hdeck. exec_monad.
    destruct (generate env _ _ _) as [result|err]; exec_monad;
      [|apply lookup_insert_eq].
    destruct (verdict_of_result result) as [v|err]; exec_monad;
      apply lookup_insert_eq.
Qed.

Lemma staged_file_is_left_behind_witness :
  tmp_files (snd (geminiQuizService Scenario.env_ok (JStr "d1") (JStr "u1") None
                    Scenario.w_fresh))
    !! tmpFilePath "u1" = Some "[...]"
  /\ tmp_files (snd (geminiModerationService Scenario.env_ok (JStr "d1") (JStr "u1")
                       Scenario.w_fresh))
       !! moderationFilePath (JStr "u1")
     = Some (formatPrompt [Scenario.card "a" 1; Scenario.card "b" 2]).
Proof.
  apply (staged_file_is_left_behind Scenario.env_ok "d1" "u1" None Scenario.w_fresh
           {| flashcards := [Scenario.card "a" 1; Scenario.card "b" 2];
              made_to_quiz_at := None |});
    try reflexivity; discriminate.
Defined.

(* ===================================================================== *)
(** * Further properties: batching, formatting and aggregation           *)
(* ===================================================================== *)

Import Batching Effects.

Section ChunkFacts.
Context {A : Type}.
Implicit Types array l : list A.

(** Within the array, [slice(i, i + n)] is the next [n] elements. *)
Lemma js_slice_window l (i n : nat) :
  (i <= length l)%nat ->
  js_slice l (Z.of_nat i) (Z.of_nat i + Z.of_nat n) = take n (drop i l).
Proof.
  intros Hi. unfold js_slice.
  destruct (Z.of_nat i <? 0) eqn:E1; [lia|].
  destruct (Z.of_nat i + Z.of_nat n <? 0) eqn:E2; [apply Z.ltb_lt in E2; lia|].
  rewrite (Z.min_l (Z.of_nat i)) by lia. rewrite Nat2Z.id.
  destruct (decide (i + n <= length l)%nat).
  - rewrite Z.min_l by lia. f_equal. lia.
  - rewrite Z.min_r by lia.
    rewrite !take_ge; [done|rewrite length_drop; lia|rewrite length_drop; lia].
Qed.

(** The invariant of the loop: after [j] iterations the chunks are the
    first [j] windows, and [fuel] iterations are enough for what is left. *)
Lemma chunk_loop_spec array (n : nat) :
  (1 <= n)%nat ->
  forall fuel (j : nat) (chunks : list (list A)),
    (length array <= j * n + fuel * n)%nat ->
    (j = 0 \/ (j - 1) * n < length array)%nat ->
    chunks = map (window n array) (seq 0 j) ->
    exists count,
      chunk_loop fuel array (Z.of_nat n) (Z.of_nat (j * n)) chunks
      = Some (map (window n array) (seq 0 count))
      /\ (length array <= count * n)%nat
      /\ (count = 0 \/ (count - 1) * n < length array)%nat.
Proof.
  intros Hn. induction fuel as [|fuel IH]; intros j chunks Hfuel Hj ->; simpl.
  - destruct (Z.of_nat (j * n) <? Z.of_nat (length array)) eqn:E.
    { apply Z.ltb_lt, Nat2Z.inj_lt in E. lia. }
    apply Z.ltb_ge, Nat2Z.inj_le in E.
    exists j. split; [done|]. split; [lia|done].
  - destruct (Z.of_nat (j * n) <? Z.of_nat (length array)) eqn:E.
    + apply Z.ltb_lt, Nat2Z.inj_lt in E.
      rewrite js_slice_window by lia.
      replace (Z.of_nat (j * n) + Z.of_nat n) with (Z.of_nat (S j * n)) by lia.
      apply IH; [lia|right; simpl; lia|].
      rewrite seq_S, map_app. reflexivity.
    + apply Z.ltb_ge, Nat2Z.inj_le in E.
      exists j. split; [done|]. split; [lia|done].
Qed.

Lemma concat_windows l (n count : nat) :
  concat (map (window n l) (seq 0 count)) = take (count * n) l.
Proof.
  induction count as [|count IH]; [done|].
  rewrite seq_S, map_app, concat_app, IH. simpl. rewrite app_nil_r.
  unfold window. rewrite take_take_drop. f_equal. lia.
Qed.

(** With a positive size and enough fuel the loop ends, and the chunks
    are the windows of the array. *)
Lemma chunkArray_windows array (n fuel : nat) :
  (1 <= n)%nat -> (length array <= fuel)%nat ->
  exists count,
    chunkArray fuel array (Z.of_nat n) = Some (map (window n array) (seq 0 count))
    /\ (length array <= count * n)%nat
    /\ (count = 0 \/ (count - 1) * n < length array)%nat.
Proof.
  intros Hn Hfuel.
  apply (chunk_loop_spec array n Hn fuel 0 []); [nia|by left|done].
Qed.

(** X1. For a chunk size of at least 1, [chunkArray] terminates (as many
    iterations as the array has elements are enough), the chunks put end
    to end are the array, and the chunk with index [k] is the [n]
    elements from position [k * n] on. *)
Theorem chunkArray_partitions array (n fuel : nat) :
  (1 <= n)%nat -> (length array <= fuel)%nat ->
  exists chunks,
    chunkArray fuel array (Z.of_nat n) = Some chunks
    /\ concat chunks = array
    /\ forall k c, chunks !! k = Some c -> c = take n (drop (k * n) array).
Proof.
  intros Hn Hfuel.
  destruct (chunkArray_windows array n fuel Hn Hfuel) as (count & -> & Hlen & _).
  eexists. split; [reflexivity|]. split.
  - rewrite concat_windows. by apply take_ge.
  - intros k c Hk. rewrite list_lookup_fmap in Hk.
    destruct (seq 0 count !! k) as [k'|] eqn:Hs; [|done].
    apply lookup_seq in Hs as [-> _]. by injection Hk as <-.
Qed.

(** X2. For a chunk size [n] of at least 1, [chunkArray] gives
    [ceil(length / n)] chunks, none of them empty or longer than [n], and
    every chunk but the last has exactly [n] elements. *)
Theorem chunkArray_sizes array (n fuel : nat) :
  (1 <= n)%nat -> (length array <= fuel)%nat ->
  exists chunks,
    chunkArray fuel array (Z.of_nat n) = Some chunks
    /\ (length array <= length chunks * n)%nat
    /\ (length chunks * n < length array + n)%nat
    /\ forall k c, chunks !! k = Some c ->
         (1 <= length c <= n)%nat
         /\ ((S k < length chunks)%nat -> length c = n).
Proof.
  intros Hn Hfuel.
  destruct (chunkArray_windows array n fuel Hn Hfuel) as (count & -> & Hlen & Hlast).
  eexists. split; [reflexivity|].
  rewrite length_map, length_seq. split; [done|]. split; [nia|].
  intros k c Hk. rewrite list_lookup_fmap in Hk.
  destruct (seq 0 count !! k) as [k'|] eqn:Hs; [|done].
  apply lookup_seq in Hs as [-> Hlt]. injection Hk as <-. simpl in *.
  unfold window. rewrite length_take, length_drop.
  assert (k * n <= (count - 1) * n)%nat by nia.
  split; [lia|]. intros Hk. assert (S k * n <= (count - 1) * n)%nat by nia. lia.
Qed.

(** With a size which is not positive the index never passes the length
    of an array which has an element. *)
Lemma chunk_loop_stuck array (chunkSize : Z) :
  chunkSize <= 0 -> array <> [] ->
  forall fuel i chunks, i <= 0 -> chunk_loop fuel array chunkSize i chunks = None.
Proof.
  intros Hs Hne. assert (0 < length array)%nat by (destruct array; [done|simpl; lia]).
  induction fuel as [|fuel IH]; intros i chunks Hi; simpl.
  - destruct (i <? Z.of_nat (length array)) eqn:E; [done|]. apply Z.ltb_ge in E. lia.
  - destruct (i <? Z.of_nat (length array)) eqn:E.
    + apply IH. lia.
    + apply Z.ltb_ge in E. lia.
Qed.

(** X3. With a chunk size of 0 or less, [chunkArray] returns (the empty
    list of chunks) for the empty array alone: on every other array the
    loop does not end, whatever the number of iterations it is given. *)
Theorem chunkArray_needs_a_positive_size array (chunkSize : Z) (fuel : nat) :
  chunkSize <= 0 ->
  chunkArray fuel array chunkSize = (if array is [] then Some [] else None).
Proof.
  intros Hs. destruct array as [|x array]; [by destruct fuel|].
  by apply chunk_loop_stuck.
Qed.

End ChunkFacts.

Lemma chunkArray_partitions_witness :
  exists chunks,
    chunkArray 5 ["a"; "b"; "c"; "d"; "e"] (Z.of_nat 2) = Some chunks
    /\ concat chunks = ["a"; "b"; "c"; "d"; "e"]
    /\ forall k c, chunks !! k = Some c ->
         c = take 2 (drop (k * 2) ["a"; "b"; "c"; "d"; "e"]).
Proof. apply (chunkArray_partitions ["a"; "b"; "c"; "d"; "e"] 2 5); simpl; lia. Defined.

Lemma chunkArray_sizes_witness :
  exists chunks,
    chunkArray 5 ["a"; "b"; "c"; "d"; "e"] (Z.of_nat 2) = Some chunks
    /\ (5 <= length chunks * 2)%nat
    /\ (length chunks * 2 < 5 + 2)%nat
    /\ forall k c, chunks !! k = Some c ->
         (1 <= length c <= 2)%nat
         /\ ((S k < length chunks)%nat -> length c = 2%nat).
Proof. apply (chunkArray_sizes ["a"; "b"; "c"; "d"; "e"] 2 5); simpl; lia. Defined.

Lemma chunkArray_needs_a_positive_size_witness :
  chunkArray 1000 ["a"] 0 = None.
Proof. apply (chunkArray_needs_a_positive_size ["a"] 0 1000). lia. Defined.

Section FormatFacts.

Lemma string_app_assoc (a b c : string) : (a +:+ b) +:+ c = a +:+ (b +:+ c).
Proof.
  induction a as [|x a IH]; [reflexivity|].
  change (String x ((a +:+ b) +:+ c) = String x (a +:+ b +:+ c)). by rewrite IH.
Qed.

Lemma join_app sep (l1 l2 : list string) :
  l1 <> [] -> l2 <> [] ->
  join sep (l1 ++ l2) = join sep l1 +:+ sep +:+ join sep l2.
Proof.
  intros H1 H2. induction l1 as [|x [|y l1] IH]; [done| |].
  - destruct l2; [done|]. reflexivity.
  - change (x +:+ sep +:+ join sep ((y :: l1) ++ l2)
            = (x +:+ sep +:+ join sep (y :: l1)) +:+ sep +:+ join sep l2).
    rewrite IH by done. by rewrite !string_app_assoc.
Qed.

Lemma join_concat sep (ls : list (list string)) :
  Forall (fun l => l <> []) ls ->
  join sep (concat ls) = join sep (map (join sep) ls).
Proof.
  induction 1 as [|l ls Hl Hls IH]; [done|].
  destruct ls as [|l' ls].
  - simpl. by rewrite app_nil_r.
  - change (join sep (l ++ concat (l' :: ls))
            = join sep l +:+ sep +:+ join sep (map (join sep) (l' :: ls))).
    rewrite <- IH. apply join_app; [done|].
    inversion Hls; subst. simpl. destruct l'; done.
Qed.

Lemma formatPrompt_concat (chunks : list (list Flashcard)) :
  Forall (fun c => c <> []) chunks ->
  formatPrompt (concat chunks)
  = join (newline +:+ newline) (map formatPrompt chunks).
Proof.
  intros H. unfold formatPrompt.
  set (line := fun f => "Definition: " +:+ fc_definition f +:+ newline
                        +:+ "Term: " +:+ fc_term f).
  change (join (newline +:+ newline) (map line (concat chunks))
          = join (newline +:+ newline)
              (map (fun c => join (newline +:+ newline) (map line c)) chunks)).
  rewrite <- (map_map (map line) (join (newline +:+ newline)) chunks).
  rewrite <- join_concat.
  - f_equal. induction chunks as [|c chunks IH]; [done|].
    simpl. rewrite map_app. f_equal. apply IH. by inversion H.
  - clear -H. induction H as [|c chunks Hc _ IH]; constructor; [|done].
    by destruct c.
Qed.

(** X4. [formatPrompt] of flashcards given in groups, none of them
    empty, is the [formatPrompt] of each group, joined by the blank line
    which separates two flashcards. *)
Theorem formatPrompt_of_chunks (chunks : list (list Flashcard)) :
  Forall (fun c => c <> []) chunks ->
  formatPrompt (concat chunks)
  = join (newline +:+ newline) (map formatPrompt chunks).
Proof. exact (formatPrompt_concat chunks). Qed.

(** X5. For a chunk size of at least 1, the text [formatPrompt] gives for
    a whole deck is the texts it gives for the chunks of [chunkArray],
    joined by blank lines: batching the deck cuts the text between two
    flashcards and loses or repeats none. *)
Theorem formatPrompt_by_chunks (deck : list Flashcard) (n fuel : nat) :
  (1 <= n)%nat -> (length deck <= fuel)%nat ->
  exists chunks,
    chunkArray fuel deck (Z.of_nat n) = Some chunks
    /\ formatPrompt deck = join (newline +:+ newline) (map formatPrompt chunks).
Proof.
  intros Hn Hfuel.
  destruct (chunkArray_windows deck n fuel Hn Hfuel) as (count & E & Hlen & Hlast).
  eexists. split; [exact E|].
  rewrite <- formatPrompt_concat.
  - f_equal. rewrite concat_windows. symmetry. by apply take_ge.
  - apply Forall_forall. intros c Hc.
    apply list_elem_of_fmap in Hc as (k & -> & Hk).
    apply elem_of_seq in Hk. unfold window. intros E0.
    apply (f_equal length) in E0. rewrite length_take, length_drop in E0.
    simpl in E0. assert (k * n <= (count - 1) * n)%nat by nia. lia.
Qed.

End FormatFacts.

Lemma formatPrompt_of_chunks_witness :
  formatPrompt (concat [[Scenario.card "a" 1]; [Scenario.card "b" 2; Scenario.card "c" 3]])
  = join (newline +:+ newline)
      (map formatPrompt [[Scenario.card "a" 1]; [Scenario.card "b" 2; Scenario.card "c" 3]]).
Proof.
  apply (formatPrompt_of_chunks
           [[Scenario.card "a" 1]; [Scenario.card "b" 2; Scenario.card "c" 3]]).
  repeat constructor; discriminate.
Defined.

Lemma formatPrompt_by_chunks_witness :
  exists chunks,
    chunkArray 3 [Scenario.card "a" 1; Scenario.card "b" 2; Scenario.card "c" 3]
               (Z.of_nat 2) = Some chunks
    /\ formatPrompt [Scenario.card "a" 1; Scenario.card "b" 2; Scenario.card "c" 3]
       = join (newline +:+ newline) (map formatPrompt chunks).
Proof.
  apply (formatPrompt_by_chunks
           [Scenario.card "a" 1; Scenario.card "b" 2; Scenario.card "c" 3] 2 3);
    simpl; lia.
Defined.

Section AggregatorMore.
Implicit Types rs : list AiResponse.

(** The verdict of the aggregator in closed form. *)
Lemma aggregate_closed_form rs :
  overall_verdict (aggregateModerationResults rs)
  = {| is_appropriate :=
         forallb (fun r => is_appropriate (overall_verdict (Aggregator.data r))) rs;
       moderation_decision :=
         List.last (map moderation_decision (inappropriate rs)) "Content is appropriate";
       flagged_cards := JsArray (concat (map flagged_items (inappropriate rs))) |}.
Proof.
  assert (E : overall_verdict (aggregateModerationResults rs) = ref_aggregate rs).
  { unfold aggregateModerationResults, ref_aggregate. simpl.
    apply (aggregate_loop_ref rs
             {| isAppropriate := true; inappropriateItems := [];
                moderationDecision := "Content is appropriate" |}). }
  rewrite E. unfold ref_aggregate.
  pose proof (fold_ref_flag rs ref_initial) as H1.
  pose proof (fold_ref_decision rs ref_initial) as H2.
  pose proof (fold_ref_flagged rs ref_initial) as H3.
  change (fold_left ref_step rs
            {| is_appropriate := is_appropriate ref_initial;
               moderation_decision := moderation_decision ref_initial;
               flagged_cards := JsArray (flagged_items ref_initial) |})
    with (fold_left ref_step rs ref_initial) in H3.
  destruct (fold_left ref_step rs ref_initial) as [a d f]. simpl in *.
  by rewrite H1, H2, H3.
Qed.

Lemma inappropriate_app rs1 rs2 :
  inappropriate (rs1 ++ rs2) = inappropriate rs1 ++ inappropriate rs2.
Proof. unfold inappropriate. by rewrite map_app, List.filter_app. Qed.

Lemma inappropriate_nil rs :
  forallb (fun r => is_appropriate (overall_verdict (Aggregator.data r))) rs = true ->
  inappropriate rs = [].
Proof.
  induction rs as [|r rs IH]; [done|]. simpl. intros [H1 H2]%andb_true_iff.
  unfold inappropriate. simpl. rewrite H1. simpl. by apply IH.
Qed.

Lemma inappropriate_not_nil rs :
  forallb (fun r => is_appropriate (overall_verdict (Aggregator.data r))) rs = false ->
  inappropriate rs <> [].
Proof.
  induction rs as [|r rs IH]; [done|]. simpl.
  unfold inappropriate. simpl.
  destruct (is_appropriate (overall_verdict (Aggregator.data r))); simpl; [|done].
  apply IH.
Qed.

Lemma last_app_r {A} (l1 l2 : list A) (d : A) :
  l2 <> [] -> List.last (l1 ++ l2) d = List.last l2 d.
Proof.
  intros H. induction l1 as [|x l1 IH]; [done|].
  simpl. destruct (l1 ++ l2) eqn:E; [|done].
  by apply app_eq_nil in E as [_ ->].
Qed.

(** X6. When the aggregated verdict is appropriate, it flags no card, its
    decision is the default text, and every response was appropriate: a
    single inappropriate response makes the whole verdict inappropriate. *)
Theorem appropriate_verdict_has_no_flagged_card rs :
  let v := overall_verdict (aggregateModerationResults rs) in
  is_appropriate v = true ->
  flagged_cards v = JsArray []
  /\ moderation_decision v = "Content is appropriate"
  /\ Forall (fun r => is_appropriate (overall_verdict (Aggregator.data r)) = true) rs.
Proof.
  cbv zeta. rewrite aggregate_closed_form. simpl. intros H.
  rewrite (inappropriate_nil rs H). repeat split.
  apply List.Forall_forall. intros r Hr.
  rewrite forallb_forall in H. by apply H.
Qed.

(** X7. Aggregating two runs of responses one after the other: the
    verdict is appropriate when both are, the flagged cards are those of
    the first followed by those of the second, and the decision is the
    one of the second run unless the second run is appropriate. *)
Theorem aggregate_of_two_runs rs1 rs2 :
  let v1 := overall_verdict (aggregateModerationResults rs1) in
  let v2 := overall_verdict (aggregateModerationResults rs2) in
  let v := overall_verdict (aggregateModerationResults (rs1 ++ rs2)) in
  is_appropriate v = is_appropriate v1 && is_appropriate v2
  /\ moderation_decision v
     = (if is_appropriate v2 then moderation_decision v1 else moderation_decision v2)
  /\ exists f1 f2,
       flagged_cards v1 = JsArray f1
       /\ flagged_cards v2 = JsArray f2
       /\ flagged_cards v = JsArray (f1 ++ f2).
Proof.
  cbv zeta. rewrite !aggregate_closed_form. simpl.
  rewrite inappropriate_app, !map_app, concat_app, forallb_app.
  split; [done|]. split; [|eauto].
  destruct (forallb _ rs2) eqn:H2.
  - rewrite (inappropriate_nil rs2 H2). simpl. by rewrite app_nil_r.
  - apply last_app_r. intros E%map_eq_nil. by apply inappropriate_not_nil in H2.
Qed.

End AggregatorMore.

Lemma appropriate_verdict_has_no_flagged_card_witness :
  let v := overall_verdict (aggregateModerationResults [Cases.clean_run; Cases.clean_run]) in
  flagged_cards v = JsArray []
  /\ moderation_decision v = "Content is appropriate"
  /\ Forall (fun r => is_appropriate (overall_verdict (Aggregator.data r)) = true)
            [Cases.clean_run; Cases.clean_run].
Proof.
  apply (appropriate_verdict_has_no_flagged_card [Cases.clean_run; Cases.clean_run]).
  reflexivity.
Defined.

Section SelectMore.
Context {A : Type}.
Implicit Types s : list A.

(** X8. The selection does not reject a negative count: asked for [n]
    below 0 it returns all the questions but the last [-n] (none when
    there are not as many). *)
Theorem negative_count_drops_from_the_end s (n : Z) :
  n < 0 ->
  select s (Some n) = Returned (take (length s - Z.to_nat (- n)) s).
Proof.
  intros Hn. unfold select, numToReturn, slice0.
  destruct (Z.of_nat (length s) <? n) eqn:E; [apply Z.ltb_lt in E; lia|].
  destruct (n <? 0) eqn:E'; [|apply Z.ltb_ge in E'; lia].
  do 2 f_equal. lia.
Qed.

End SelectMore.

Lemma negative_count_drops_from_the_end_witness :
  select ["a"; "b"; "c"] (Some (-1)) = Returned ["a"; "b"].
Proof. apply (negative_count_drops_from_the_end ["a"; "b"; "c"] (-1)). lia. Defined.

(* ===================================================================== *)
(** * Further properties of the quiz service                             *)
(* ===================================================================== *)




Lemma quiz_effect_refl deckId id w : quiz_effect deckId id w w.
Proof. unfold quiz_effect. repeat split; by left. Qed.

Lemma quiz_effect_only_reads deckId id w w1 w2 :
  quiz_effect deckId id w w1 -> only_reads w1 w2 -> quiz_effect deckId id w w2.
Proof.
  intros (Hp & Hn & Hf & Hd & Hq) (Hp' & Hf' & Hn' & _).
  unfold persisted in Hp'. injection Hp' as Hd' Hq' Hp'.
  unfold quiz_effect. by rewrite Hp', Hn', Hf', Hd', Hq'.
Qed.

Lemma select_tail_effect env deckId id quizId numOfQuiz success w w1 :
  quiz_effect deckId id w w1 ->
  let '(r, w') := select_tail env quizId numOfQuiz success w1 in
  quiz_effect deckId id w w' /\ forall v, r = Returned v -> answer_shape v.
Proof.
  intros H. pose proof (select_tail_spec env quizId numOfQuiz success w1) as Hs.
  destruct (select_tail env quizId numOfQuiz success w1) as [r w'].
  destruct Hs as [Hr Hv]. split; [by eapply quiz_effect_only_reads|].
  intros v Ev. destruct (Hv v Ev) as (q & sel & _ & _ & ->). left. simpl. eauto.
Qed.

Ltac effect_done :=
  split; [|done];
  unfold quiz_effect; exec_monad; exec_records;
  repeat split; eauto 10.

Lemma create_path_effect env deckId id numOfQuiz w :
  quizzes_of_deck w deckId "multiple-choice" = [] ->
  let '(r, w') := create_path env deckId id numOfQuiz w in
  quiz_effect deckId id w w' /\ forall v, r = Returned v -> answer_shape v.
Proof.
  intros Hq. unfold create_path. exec_calls.
  destruct (faults env OpGetDeckById); exec_monad; [effect_done|].
  destruct (decks w !! deckId) as [d|] eqn:Hdeck; exec_monad; [|effect_done].
  destruct (0 <? length (flashcards d))%nat; exec_monad.
  2:{ split; [unfold quiz_effect; exec_monad; repeat split; by left|].
      intros v [= <-]. by right. }
  destruct (faults env OpWriteFile); exec_monad; [effect_done|].
  destruct (faults env OpSendPromptInline); exec_monad; [effect_done|].
  destruct (generate env _ _ _) as [result|err]; exec_monad; [|effect_done].
  destruct (quiz_of_result result) as [qs|err]; exec_monad; [|effect_done].
  destruct (faults env OpCreateQuizForDeck); exec_monad; [effect_done|].
  destruct (faults env OpCreateQuestionAndAnswer); exec_monad.
  { effect_done. right. right. eexists. split; [exact Hq|]. split; [|split; [|reflexivity]]; reflexivity. }
  rewrite alter_last.
  destruct (faults env OpUpdateDeck); exec_monad.
  { effect_done. right. right. eexists. split; [exact Hq|]. split; [|split; [|reflexivity]]; reflexivity. }
  rewrite Hdeck. exec_monad.
  apply select_tail_effect.
  unfold quiz_effect; exec_monad; exec_records. repeat split; eauto 10.
  right. right. eexists. split; [exact Hq|]. split; [|split; [|reflexivity]]; reflexivity.
Qed.

Lemma reconcile_path_effect env deckId id numOfQuiz first rest w :
  quizzes_of_deck w deckId "multiple-choice" = first :: rest ->
  let '(r, w') := reconcile_path env deckId id numOfQuiz first w in
  quiz_effect deckId id w w' /\ forall v, r = Returned v -> answer_shape v.
Proof.
  intros Hq. unfold reconcile_path. exec_calls.
  destruct (faults env OpGetNewFlashcards); exec_monad; [effect_done|].
  replace (new_flashcards (set_trace w _) deckId (updated_at (doc first)))
    with (new_flashcards w deckId (updated_at (doc first))) by reflexivity.
  set (newFlashcards := new_flashcards w deckId (updated_at (doc first))).
  destruct (0 <? length newFlashcards)%nat; exec_monad.
  2:{ apply select_tail_effect. unfold quiz_effect; exec_monad; repeat split; by left. }
  destruct (faults env OpWriteFile); exec_monad; [effect_done|].
  destruct (faults env OpSendPromptInline); exec_monad; [effect_done|].
  destruct (generate env _ _ _) as [result|err]; exec_monad; [|effect_done].
  destruct (quiz_of_result result) as [qs|err] eqn:Hshape; exec_monad; [|effect_done].
  rewrite Hshape. exec_monad.
  destruct (faults env OpCreateQuestionAndAnswer); exec_monad; [effect_done|].
  destruct (faults env OpUpdateDeck); exec_monad; [effect_done|].
  destruct (decks w !! deckId) as [d|] eqn:Hdeck; exec_monad; [|effect_done].
  apply select_tail_effect.
  unfold quiz_effect; exec_monad; exec_records. repeat split; eauto 10.
Qed.

Lemma quiz_try_effect env deckId id numOfQuiz w :
  let '(r, w') := quiz_try env deckId id numOfQuiz w in
  quiz_effect (to_string deckId) (to_string id) w w'
  /\ forall v, r = Returned v -> answer_shape v.
Proof.
  unfold quiz_try.
  destruct (falsy deckId || not_a_string deckId);
    [split; [apply quiz_effect_refl|done]|].
  destruct (falsy id || not_a_string id);
    [split; [apply quiz_effect_refl|done]|].
  exec_calls.
  destruct (faults env OpGetDeckAndCheckField); exec_monad; [effect_done|].
  destruct (faults env OpGetQuizByDeckIDAndQuizType); exec_monad; [effect_done|].
  replace (quizzes_of_deck (set_trace _ _) (to_string deckId) "multiple-choice")
    with (quizzes_of_deck w (to_string deckId) "multiple-choice") by reflexivity.
  set (w2 := set_trace (set_trace w _) _).
  assert (Hnone : quizzes_of_deck w (to_string deckId) "multiple-choice" = [] ->
            let '(r, w') :=
              (if exists_ (match decks w !! to_string deckId with
                           | Some d => {| exists_ := true;
                                          field_exists := match made_to_quiz_at d with
                                                          | Some _ => true | None => false end;
                                          field_value := made_to_quiz_at d |}
                           | None => {| exists_ := false; field_exists := false;
                                        field_value := None |}
                           end)
                  && negb (field_exists (match decks w !! to_string deckId with
                           | Some d => {| exists_ := true;
                                          field_exists := match made_to_quiz_at d with
                                                          | Some _ => true | None => false end;
                                          field_value := made_to_quiz_at d |}
                           | None => {| exists_ := false; field_exists := false;
                                        field_value := None |}
                           end))
               then create_path env (to_string deckId) (to_string id) numOfQuiz
               else fun w0 => (Returned (initial_vars deckId), w0)) w2 in
            quiz_effect (to_string deckId) (to_string id) w w'
            /\ forall v, r = Returned v -> answer_shape v).
  { intros Hq.
    destruct (_ && _).
    - by apply (create_path_effect env (to_string deckId) (to_string id) numOfQuiz w2).
    - split; [unfold quiz_effect; exec_monad; repeat split; by left|].
      intros v [= <-]. by right. }
  destruct (quizzes_of_deck w (to_string deckId) "multiple-choice")
    as [|first rest] eqn:Hq.
  - destruct (absent_is_null env); by apply Hnone.
  - by apply (reconcile_path_effect env (to_string deckId) (to_string id) numOfQuiz
                first rest w2).
Qed.


Lemma status_of_message_range m code :
  status_of_message m = Some code -> code = 400 \/ code = 404 \/ code = 502.
Proof.
  unfold status_of_message. repeat case_decide; intros [= <-]; eauto.
Qed.

(** X9. Every answer of the quiz service names the caller as request
    owner and is of one of two kinds: status 200 with a payload, or
    status 400, 404, 500 or 502 without data. *)
Theorem quiz_envelope_has_data_iff_200 env deckId id numOfQuiz w :
  let r := fst (geminiQuizService env deckId id numOfQuiz w) in
  request_owner_id r = id
  /\ ((status r = 200 /\ exists payload, data r = Some payload)
      \/ ((status r = 400 \/ status r = 404 \/ status r = 500 \/ status r = 502)
          /\ data r = None)).
Proof.
  cbv zeta. pose proof (quiz_try_effect env deckId id numOfQuiz w) as H.
  destruct (quiz_try env deckId id numOfQuiz w) as [[v|e] w'] eqn:E.
  - rewrite (geminiQuizService_returned _ _ _ _ _ _ _ E). simpl.
    split; [done|]. destruct H as [_ H]. destruct (H v eq_refl) as [[-> Hd]|[-> Hd]]; eauto 10.
  - rewrite (geminiQuizService_thrown _ _ _ _ _ _ _ E). simpl.
    split; [done|]. right. split; [|done]. unfold quiz_catch.
    destruct (status_of_message (err_message e)) as [code|] eqn:Hc; simpl; [|eauto].
    apply status_of_message_range in Hc. destruct Hc as [-> | [-> | ->]]; eauto 10.
Qed.





Lemma set_questions_same q : set_questions q (questions q) = q.
Proof. by destruct q. Qed.

(** X11. A quiz document which exists before a call of the quiz
    service exists after it under the same id, with the same fields and
    with its questions as a prefix of the new ones: the service removes
    and rewrites no question. *)
Theorem quiz_service_only_appends_questions env deckId id numOfQuiz w i q :
  quizzes w !! i = Some q ->
  exists added,
    quizzes (snd (geminiQuizService env deckId id numOfQuiz w)) !! i
    = Some (set_questions q (questions q ++ added)).
Proof.
  intros Hi. rewrite geminiQuizService_world.
  pose proof (quiz_try_effect env deckId id numOfQuiz w) as H.
  destruct (quiz_try env deckId id numOfQuiz w) as [r w']. simpl.
  destruct H as [(_ & _ & _ & _ & Hq) _].
  destruct Hq as [Hq|[(first & rest & qs & Hfirst & Hq)|(q' & Hnone & Hd & Ht & Hq)]];
    rewrite Hq.
  - exists []. by rewrite app_nil_r, set_questions_same.
  - destruct (decide (i = Store.id first)) as [->|Hne].
    + exists qs. rewrite list_lookup_alter_eq. by rewrite Hi.
    + exists []. rewrite list_lookup_alter_ne by done. rewrite Hi.
      by rewrite app_nil_r, set_questions_same.
  - exists []. rewrite lookup_app_l by by eapply lookup_lt_Some.
    by rewrite app_nil_r, set_questions_same.
Qed.



Lemma quizzes_of_deck_first w deckId type first rest :
  quizzes_of_deck w deckId type = first :: rest ->
  quizzes w !! Store.id first = Some (doc first)
  /\ associated_deck_id (doc first) = deckId
  /\ quiz_type (doc first) = type.
Proof.
  intros H.
  assert (Hin : In first (quizzes_of_deck w deckId type)) by (rewrite H; by left).
  unfold quizzes_of_deck in Hin. apply List.filter_In in Hin as [Hin Hm].
  apply list_elem_of_In in Hin. unfold quiz_objects in Hin.
  apply elem_of_lookup_imap in Hin as (i & q & -> & Hi). simpl.
  unfold matches in Hm. simpl in Hm. apply andb_true_iff in Hm as [H1 H2].
  by apply bool_decide_eq_true in H1, H2.
Qed.

(** X13. When the [try] of the quiz service ends with the error of the
    count check (and no collaborator forges it), a count was asked for and
    the world it ends in has a quiz of the deck with fewer questions than
    that count. *)
Theorem count_error_only_when_count_exceeds env deckId id numOfQuiz w e w' :
  no_forged_count_error env ->
  quiz_try env deckId id numOfQuiz w = (Thrown e, w') ->
  err_name e = "EXCEEDS_AVAILABLE_CARDS" ->
  exists n i q,
    numOfQuiz = Some n
    /\ quizzes w' !! i = Some q
    /\ associated_deck_id q = to_string deckId
    /\ Z.of_nat (length (questions q)) < n.
Proof.
  intros Hforge H He. unfold quiz_try in H.
  destruct (falsy deckId || not_a_string deckId); [thrown_elsewhere H Hforge He|].
  destruct (falsy id || not_a_string id); [thrown_elsewhere H Hforge He|].
  exec_calls.
  destruct (faults env OpGetDeckAndCheckField) eqn:F1; exec_monad;
    [thrown_elsewhere H Hforge He|].
  destruct (faults env OpGetQuizByDeckIDAndQuizType) eqn:F2; exec_monad;
    [thrown_elsewhere H Hforge He|].
  replace (quizzes_of_deck (set_trace _ _) (to_string deckId) "multiple-choice")
    with (quizzes_of_deck w (to_string deckId) "multiple-choice") in H by reflexivity.
  destruct (quizzes_of_deck w (to_string deckId) "multiple-choice")
    as [|first rest] eqn:Hq.
  - assert (Hc : create_path env (to_string deckId) (to_string id) numOfQuiz
                   (log (EvGetQuizByDeckIDAndQuizType (to_string deckId) "multiple-choice")
                      (log (EvGetDeckAndCheckField (to_string deckId) "made_to_quiz_at") w))
                 = (Thrown e, w')).
    { destruct (absent_is_null env); destruct (_ && _); done. }
    apply create_path_exceeds in Hc
      as (d & qs & n & _ & -> & Hlt & Hqs & _); [|done..].
    exists n, (length (quizzes w)), (created_quiz env w (to_string deckId) qs).
    split; [done|]. rewrite Hqs. split; [apply lookup_last|]. by split.
  - exec_monad.
    destruct (decide (new_flashcards w (to_string deckId) (updated_at (doc first)) = []))
      as [Hnew|Hnew].
    + unfold reconcile_path in H. exec_calls.
      destruct (faults env OpGetNewFlashcards) eqn:F3; exec_monad;
        [thrown_elsewhere H Hforge He|].
      replace (new_flashcards (set_trace _ _) (to_string deckId) (updated_at (doc first)))
        with (new_flashcards w (to_string deckId) (updated_at (doc first)))
        in H by reflexivity.
      rewrite Hnew in H. cbn [length Nat.ltb Nat.leb] in H.
      apply select_tail_exceeds in H as (-> & q & n & Hi & -> & Hlt); [|done..].
      exec_monad. apply quizzes_of_deck_first in Hq as (Hf & Hd & _).
      pose proof (eq_trans (eq_sym Hi) Hf) as E. injection E as ->.
      by exists n, (Store.id first), (doc first).
    + apply reconcile_path_exceeds in H
        as (d & qs & n & q & _ & -> & Hi & Hlt & Hqs & _); [|done..].
      apply quizzes_of_deck_first in Hq as (Hf & Hd & _).
      exists n, (Store.id first), q. repeat split; try done.
      rewrite Hqs, list_lookup_alter_eq in Hi. exec_monad. unfold QuizId in *.
      rewrite Hf in Hi. injection Hi as <-. exact Hd.
Qed.




Ltac failed_generation H Hforge He :=
  first [ thrown_elsewhere H Hforge He
        | injection H as <- <-; reflexivity ].

Lemma select_tail_not_generation env quizId numOfQuiz success w e w' :
  no_forged_generation_failure env ->
  select_tail env quizId numOfQuiz success w = (Thrown e, w') ->
  err_message e <> "AI_GENERATION_FAILED".
Proof.
  intros Hforge H He. unfold select_tail in H. exec_calls.
  destruct (faults env OpGetQuizByID) as [err|] eqn:F; exec_monad;
    [thrown_elsewhere H Hforge He|].
  destruct (quizzes w !! quizId) as [q|]; exec_monad; [|thrown_elsewhere H Hforge He].
  destruct (bool_decide (quiz_type q = "multiple-choice")); exec_monad;
    [|thrown_elsewhere H Hforge He].
  destruct (select _ numOfQuiz) as [sel|e'] eqn:Hsel; [done|].
  apply select_thrown in Hsel as [-> _]. thrown_elsewhere H Hforge He.
Qed.

Lemma create_path_generation_failure env deckId id numOfQuiz w e w' :
  no_forged_generation_failure env ->
  create_path env deckId id numOfQuiz w = (Thrown e, w') ->
  err_message e = "AI_GENERATION_FAILED" ->
  persisted w' = persisted w.
Proof.
  intros Hforge H He. unfold create_path in H. exec_calls.
  destruct (faults env OpGetDeckById) eqn:F1; exec_monad;
    [failed_generation H Hforge He|].
  destruct (decks w !! deckId) as [d|] eqn:Hdeck; exec_monad;
    [|failed_generation H Hforge He].
  destruct (0 <? length (flashcards d))%nat; exec_monad; [|done].
  destruct (faults env OpWriteFile) eqn:F2; exec_monad;
    [failed_generation H Hforge He|].
  destruct (faults env OpSendPromptInline) eqn:F3; exec_monad;
    [injection H as <- <-; reflexivity|].
  destruct (generate env _ _ _) as [result|err]; exec_monad;
    [|injection H as <- <-; reflexivity].
  destruct (quiz_of_result result) as [qs|err] eqn:Hshape; exec_monad.
  2:{ injection H as <- <-. apply quiz_of_result_unclassified in Hshape.
      rewrite He in Hshape. done. }
  destruct (faults env OpCreateQuizForDeck) eqn:F4; exec_monad;
    [thrown_elsewhere H Hforge He|].
  destruct (faults env OpCreateQuestionAndAnswer) eqn:F5; exec_monad;
    [thrown_elsewhere H Hforge He|].
  destruct (faults env OpUpdateDeck) eqn:F6; exec_monad;
    [thrown_elsewhere H Hforge He|].
  rewrite Hdeck in H. exec_monad.
  by apply select_tail_not_generation in H.
Qed.

Lemma reconcile_path_generation_failure env deckId id numOfQuiz first w e w' :
  no_forged_generation_failure env ->
  reconcile_path env deckId id numOfQuiz first w = (Thrown e, w') ->
  err_message e = "AI_GENERATION_FAILED" ->
  persisted w' = persisted w.
Proof.
  intros Hforge H He. unfold reconcile_path in H. exec_calls.
  destruct (faults env OpGetNewFlashcards) eqn:F1; exec_monad;
    [failed_generation H Hforge He|].
  destruct (0 <? length _)%nat; exec_monad;
    [|by apply select_tail_not_generation in H].
  destruct (faults env OpWriteFile) eqn:F2; exec_monad;
    [failed_generation H Hforge He|].
  destruct (faults env OpSendPromptInline) eqn:F3; exec_monad;
    [injection H as <- <-; reflexivity|].
  destruct (generate env _ _ _) as [result|err]; exec_monad;
    [|injection H as <- <-; reflexivity].
  destruct (quiz_of_result result) as [qs|err] eqn:Hshape; exec_monad;
    [|injection H as <- <-; reflexivity].
  rewrite Hshape in H. exec_monad.
  destruct (faults env OpCreateQuestionAndAnswer) eqn:F5; exec_monad;
    [thrown_elsewhere H Hforge He|].
  destruct (faults env OpUpdateDeck) eqn:F6; exec_monad;
    [thrown_elsewhere H Hforge He|].
  destruct (decks w !! deckId) as [d|] eqn:Hdeck; exec_monad;
    [|thrown_elsewhere H Hforge He].
  by apply select_tail_not_generation in H.
Qed.

Lemma status_502_message m : status_of_message m = Some 502 -> m = "AI_GENERATION_FAILED".
Proof. unfold status_of_message. repeat case_decide; done. Qed.

(** X14. When the quiz service answers 502 (and no collaborator
    rejects with the message of the generator), no deck, quiz or publish
    request has changed: a failure of the generator is answered before
    anything is written to the store. *)
Theorem generation_failure_persists_nothing env deckId id numOfQuiz w :
  no_forged_generation_failure env ->
  status (fst (geminiQuizService env deckId id numOfQuiz w)) = 502 ->
  persisted (snd (geminiQuizService env deckId id numOfQuiz w)) = persisted w.
Proof.
  intros Hforge Hs.
  pose proof (quiz_try_effect env deckId id numOfQuiz w) as Hshape.
  destruct (quiz_try env deckId id numOfQuiz w) as [[v|e] w'] eqn:H.
  { rewrite (geminiQuizService_returned _ _ _ _ _ _ _ H) in Hs. simpl in Hs.
    destruct Hshape as [_ Hv]. destruct (Hv v eq_refl) as [[E _]|[E _]]; lia. }
  clear Hshape.
  rewrite (geminiQuizService_thrown _ _ _ _ _ _ _ H) in Hs |- *. simpl in *.
  assert (He : err_message e = "AI_GENERATION_FAILED").
  { unfold quiz_catch in Hs.
    destruct (status_of_message (err_message e)) as [c|] eqn:Hc; simpl in Hs; [|done].
    subst c. by apply status_502_message. }
  clear Hs. unfold quiz_try in H.
  destruct (falsy deckId || not_a_string deckId); [thrown_elsewhere H Hforge He|].
  destruct (falsy id || not_a_string id); [thrown_elsewhere H Hforge He|].
  exec_calls.
  destruct (faults env OpGetDeckAndCheckField) eqn:F1; exec_monad;
    [thrown_elsewhere H Hforge He|].
  destruct (faults env OpGetQuizByDeckIDAndQuizType) eqn:F2; exec_monad;
    [thrown_elsewhere H Hforge He|].
  destruct (match quizzes_of_deck _ _ _ with [] => _ | _ => _ end) as [[|first rest]|].
  - destruct (_ && _); [|done].
    by apply create_path_generation_failure in H.
  - by apply reconcile_path_generation_failure in H.
  - destruct (_ && _); [|done].
    by apply create_path_generation_failure in H.
Qed.


(** X15. A deck id or a user id which is falsy or not a string is
    answered 400 with the code of the first id which is wrong, before
    any call to a collaborator: the world and its trace are unchanged. *)
Theorem invalid_ids_fail_before_any_call env deckId id numOfQuiz w :
  falsy deckId || not_a_string deckId || (falsy id || not_a_string id) = true ->
  geminiQuizService env deckId id numOfQuiz w
  = ({| status := 400;
        request_owner_id := id;
        message := "Quiz creation failed: "
                   +:+ (if falsy deckId || not_a_string deckId
                        then "INVALID_DECK_ID" else "INVALID_USER_ID");
        data := None |}, w).
Proof.
  intros H. unfold geminiQuizService, quiz_try, try_catch.
  destruct (falsy deckId || not_a_string deckId); [reflexivity|].
  simpl in H. rewrite H. reflexivity.
Qed.

Lemma select_count_ok {A} (s : list A) (numOfQuiz : option Z) (len : nat) :
  length s = len ->
  (forall n, numOfQuiz = Some n -> 0 <= n <= Z.of_nat len) ->
  select s numOfQuiz
  = Returned (take (Z.to_nat (match numOfQuiz with
                              | Some n => n
                              | None => ceil_half (Z.of_nat len)
                              end)) s).
Proof.
  intros <- Hn. rewrite select_in_range; [by destruct numOfQuiz|].
  destruct numOfQuiz as [n|]; simpl; [by apply Hn|].
  apply ceil_half_range; lia.
Qed.

(** X16. The CREATE path when nothing fails: for a deck with flashcards,
    no watermark and no quiz, when the generator returns an array of
    questions and the count asked for (if any) is between 0 and their
    number, the service answers 200 with the selection, has made the nine
    calls in this order, and leaves the staged file, a new quiz with all
    the generated questions and the stamped deck. *)
Theorem create_path_success env deckId id numOfQuiz w d questionAndAnswer :
  (forall o, faults env o = None) ->
  deckId <> "" -> id <> "" ->
  decks w !! deckId = Some d ->
  made_to_quiz_at d = None ->
  flashcards d <> [] ->
  quizzes_of_deck w deckId "multiple-choice" = [] ->
  generate env quizSchema (quizPrompt (length (flashcards d)))
           (Some (json_stringify env (flashcards d)))
  = Returned (AiObject (Some (QdQuiz (JsArray questionAndAnswer)))) ->
  (forall n, numOfQuiz = Some n -> 0 <= n <= Z.of_nat (length questionAndAnswer)) ->
  let count := match numOfQuiz with
               | Some n => n
               | None => ceil_half (Z.of_nat (length questionAndAnswer))
               end in
  let selected := take (Z.to_nat count)
                       (fischerYatesShuffle (rand env) questionAndAnswer) in
  geminiQuizService env (JStr deckId) (JStr id) numOfQuiz w
  = ({| status := 200;
        request_owner_id := JStr id;
        message := "Quiz creation for deck with id:" +:+ deckId +:+ " is successful";
        data := Some {| quizContent :=
                          {| Store.id := length (quizzes w);
                             doc := created_quiz env w deckId selected |} |} |},
     {| decks := <[deckId := stamped env w d]> (decks w);
        quizzes := quizzes w ++ [created_quiz env w deckId questionAndAnswer];
        publish_requests := publish_requests w;
        tmp_files := <[tmpFilePath id := json_stringify env (flashcards d)]> (tmp_files w);
        now := now w;
        trace := trace w ++
          [ EvGetDeckAndCheckField deckId "made_to_quiz_at";
            EvGetQuizByDeckIDAndQuizType deckId "multiple-choice";
            EvGetDeckById deckId;
            EvWriteFile (tmpFilePath id) (json_stringify env (flashcards d));
            EvSendPromptInline quizSchema (quizPrompt (length (flashcards d)))
                               (tmpFilePath id);
            EvCreateQuizForDeck deckId;
            EvCreateQuestionAndAnswer (length (quizzes w)) questionAndAnswer;
            EvUpdateDeck deckId;
            EvGetQuizByID (length (quizzes w)) ] |}).
Proof.
  intros Hnf Hd Hi Hdeck Hmark Hcards Hq Hgen Hn. cbv zeta.
  eapply (geminiQuizService_returned env (JStr deckId) (JStr id) numOfQuiz w
            {| statusCode := 200; data_ := Some _; message_ := _ |}).
  exec_quiz.
  destruct (decide (deckId = "")); [done|]. destruct (decide (id = "")); [done|].
  exec_monad. rewrite !Hnf. exec_monad. rewrite Hq, Hdeck, Hmark.
  destruct (absent_is_null env); exec_monad; rewrite Hdeck; exec_monad;
    rewrite (nonempty_length _ Hcards); exec_monad;
    rewrite lookup_insert_eq, Hgen; exec_monad; cbn [quiz_of_result]; exec_monad;
    rewrite alter_last, Hdeck; exec_monad; exec_records;
    (erewrite select_tail_run; [|apply Hnf|apply lookup_last|reflexivity]);
    cbn [questions set_questions];
    (rewrite (select_count_ok _ numOfQuiz (length questionAndAnswer));
       [|apply fischerYatesShuffle_length|exact Hn]);
    unfold log; exec_monad; rewrite <- !app_assoc; reflexivity.
Qed.


(** X17. The EXTEND path when nothing fails: for a deck whose first
    multiple-choice quiz is older than some flashcards, the service sends
    the new flashcards alone to the generator, appends the questions to
    that quiz, stamps the deck, and answers 200 with a selection drawn
    from the old and the new questions together, in eight calls. *)
Theorem extend_path_success env deckId id numOfQuiz w d first rest questionAndAnswer :
  (forall o, faults env o = None) ->
  deckId <> "" -> id <> "" ->
  quizzes_of_deck w deckId "multiple-choice" = first :: rest ->
  decks w !! deckId = Some d ->
  let newFlashcards := new_flashcards w deckId (updated_at (doc first)) in
  let all := questions (doc first) ++ questionAndAnswer in
  newFlashcards <> [] ->
  generate env quizSchema (quizPrompt (length newFlashcards))
           (Some (json_stringify env newFlashcards))
  = Returned (AiObject (Some (QdQuiz (JsArray questionAndAnswer)))) ->
  (forall n, numOfQuiz = Some n -> 0 <= n <= Z.of_nat (length all)) ->
  let count := match numOfQuiz with
               | Some n => n
               | None => ceil_half (Z.of_nat (length all))
               end in
  let selected := take (Z.to_nat count) (fischerYatesShuffle (rand env) all) in
  geminiQuizService env (JStr deckId) (JStr id) numOfQuiz w
  = ({| status := 200;
        request_owner_id := JStr id;
        message := "Quiz creation for new flashcards in deck " +:+ deckId
                   +:+ " is successful";
        data := Some {| quizContent :=
                          {| Store.id := Store.id first;
                             doc := set_questions (doc first) selected |} |} |},
     {| decks := <[deckId := stamped env w d]> (decks w);
        quizzes := alter (fun q => set_questions q (questions q ++ questionAndAnswer))
                         (Store.id first) (quizzes w);
        publish_requests := publish_requests w;
        tmp_files := <[tmpFilePath id := json_stringify env newFlashcards]> (tmp_files w);
        now := now w;
        trace := trace w ++
          [ EvGetDeckAndCheckField deckId "made_to_quiz_at";
            EvGetQuizByDeckIDAndQuizType deckId "multiple-choice";
            EvGetNewFlashcards deckId (updated_at (doc first));
            EvWriteFile (tmpFilePath id) (json_stringify env newFlashcards);
            EvSendPromptInline quizSchema (quizPrompt (length newFlashcards))
                               (tmpFilePath id);
            EvCreateQuestionAndAnswer (Store.id first) questionAndAnswer;
            EvUpdateDeck deckId;
            EvGetQuizByID (Store.id first) ] |}).
Proof.
  intros Hnf Hd Hi Hq Hdeck newFlashcards all Hnew Hgen Hn. cbv zeta.
  destruct (quizzes_of_deck_first _ _ _ _ _ Hq) as (Hfirst & _ & Htype).
  eapply (geminiQuizService_returned env (JStr deckId) (JStr id) numOfQuiz w
            {| statusCode := 200; data_ := Some _; message_ := _ |}).
  unfold quiz_try, reconcile_path. exec_calls.
  destruct (decide (deckId = "")); [done|]. destruct (decide (id = "")); [done|].
  exec_monad. rewrite !Hnf. exec_monad.
  replace (quizzes_of_deck (set_trace _ _) deckId "multiple-choice")
    with (quizzes_of_deck w deckId "multiple-choice") by reflexivity.
  rewrite Hq. exec_monad.
  replace (new_flashcards (set_trace _ _) deckId (updated_at (doc first)))
    with newFlashcards by reflexivity.
  rewrite (nonempty_length _ Hnew). exec_monad.
  rewrite lookup_insert_eq, Hgen. exec_monad. cbn [quiz_of_result]. exec_monad.
  rewrite Hdeck. exec_monad.
  erewrite select_tail_run; [|apply Hnf| |].
  2:{ exec_monad. rewrite list_lookup_alter_eq. unfold QuizId in *. by rewrite Hfirst. }
  2:{ exact Htype. }
  cbn [questions set_questions].
  rewrite (select_count_ok _ numOfQuiz (length all));
    [|apply fischerYatesShuffle_length|exact Hn].
  unfold log. exec_monad. rewrite <- !app_assoc. reflexivity.
Qed.

(** X18. A deck without flashcards (and with no watermark and no quiz)
    is answered 400 after three reads: nothing is staged, the generator
    is not called and nothing is written. *)
Theorem empty_deck_is_not_sent_to_the_generator env deckId id numOfQuiz w d :
  faults env OpGetDeckAndCheckField = None ->
  faults env OpGetQuizByDeckIDAndQuizType = None ->
  faults env OpGetDeckById = None ->
  deckId <> "" -> id <> "" ->
  decks w !! deckId = Some d ->
  made_to_quiz_at d = None ->
  flashcards d = [] ->
  quizzes_of_deck w deckId "multiple-choice" = [] ->
  geminiQuizService env (JStr deckId) (JStr id) numOfQuiz w
  = ({| status := 400;
        request_owner_id := JStr id;
        message := "Quiz creation for deck with id:" +:+ deckId +:+ " is unsuccessful";
        data := None |},
     log (EvGetDeckById deckId)
       (log (EvGetQuizByDeckIDAndQuizType deckId "multiple-choice")
          (log (EvGetDeckAndCheckField deckId "made_to_quiz_at") w))).
Proof.
  intros F1 F2 F3 Hd Hi Hdeck Hmark Hcards Hq.
  apply (geminiQuizService_returned _ _ _ _ _ (initial_vars (JStr deckId))).
  exec_quiz.
  destruct (decide (deckId = "")); [done|]. destruct (decide (id = "")); [done|].
  exec_monad. rewrite F1. exec_monad. rewrite F2. exec_monad.
  rewrite Hq, Hdeck, Hmark.
  destruct (absent_is_null env); exec_monad; rewrite F3; exec_monad;
    rewrite Hdeck; exec_monad; rewrite Hcards; reflexivity.
Qed.

Lemma quiz_service_only_appends_questions_witness :
  exists added,
    quizzes (snd (geminiQuizService Scenario.env_ok (JStr "d1") (JStr "u1") None
                    Scenario.w_new_cards)) !! 0%nat
    = Some (set_questions (Scenario.quiz_of "d1" 50 [Scenario.q "1"])
              (questions (Scenario.quiz_of "d1" 50 [Scenario.q "1"]) ++ added)).
Proof.
  apply (quiz_service_only_appends_questions Scenario.env_ok (JStr "d1") (JStr "u1")
           None Scenario.w_new_cards 0%nat).
  reflexivity.
Defined.

Lemma count_error_only_when_count_exceeds_witness :
  exists n i q,
    Some 5 = Some n
    /\ quizzes (snd (quiz_try Scenario.env_ok (JStr "d1") (JStr "u1") (Some 5)
                       Scenario.w_fresh)) !! i = Some q
    /\ associated_deck_id q = to_string (JStr "d1")
    /\ Z.of_nat (length (questions q)) < n.
Proof.
  refine (count_error_only_when_count_exceeds Scenario.env_ok (JStr "d1") (JStr "u1")
            (Some 5) Scenario.w_fresh exceeds_error _ _ _ _).
  - intros o err H. discriminate H.
  - vm_compute. reflexivity.
  - reflexivity.
Defined.

Lemma generation_failure_persists_nothing_witness :
  persisted (snd (geminiQuizService Cases.env_generation_failed (JStr "d1") (JStr "u1")
                    None Scenario.w_fresh))
  = persisted Scenario.w_fresh.
Proof.
  apply generation_failure_persists_nothing.
  - intros o err H. discriminate H.
  - vm_compute. reflexivity.
Defined.

Lemma invalid_ids_fail_before_any_call_witness :
  geminiQuizService Scenario.env_ok (JStr "d1") JNull None Scenario.w_fresh
  = ({| status := 400;
        request_owner_id := JNull;
        message := "Quiz creation failed: INVALID_USER_ID";
        data := None |}, Scenario.w_fresh).
Proof.
  apply (invalid_ids_fail_before_any_call Scenario.env_ok (JStr "d1") JNull None
           Scenario.w_fresh).
  reflexivity.
Defined.

Lemma create_path_success_witness :
  exists r w',
    geminiQuizService Scenario.env_ok (JStr "d1") (JStr "u1") None Scenario.w_fresh
    = (r, w')
    /\ status r = 200
    /\ length (quizzes w') = 1%nat.
Proof.
  eexists _, _. split.
  - apply (create_path_success Scenario.env_ok "d1" "u1" None Scenario.w_fresh
             {| flashcards := [Scenario.card "a" 1; Scenario.card "b" 2];
                made_to_quiz_at := None |}
             [Scenario.q "n1"; Scenario.q "n2"]);
      try reflexivity; discriminate.
  - split; reflexivity.
Defined.

Lemma extend_path_success_witness :
  exists r w',
    geminiQuizService Scenario.env_ok (JStr "d1") (JStr "u1") None Scenario.w_new_cards
    = (r, w')
    /\ status r = 200
    /\ length (quizzes w') = 1%nat.
Proof.
  eexists _, _. split.
  - apply (extend_path_success Scenario.env_ok "d1" "u1" None Scenario.w_new_cards
             {| flashcards := [Scenario.card "a" 1; Scenario.card "b" 60;
                               Scenario.card "c" 70];
                made_to_quiz_at := Some (JTime 50) |}
             Cases.first_quiz [] [Scenario.q "n1"; Scenario.q "n2"]);
      try reflexivity; discriminate.
  - split; reflexivity.
Defined.

Lemma empty_deck_is_not_sent_to_the_generator_witness :
  geminiQuizService Scenario.env_ok (JStr "d1") (JStr "u1") None Cases.w_empty_deck
  = ({| status := 400;
        request_owner_id := JStr "u1";
        message := "Quiz creation for deck with id:d1 is unsuccessful";
        data := None |},
     log (EvGetDeckById "d1")
       (log (EvGetQuizByDeckIDAndQuizType "d1" "multiple-choice")
          (log (EvGetDeckAndCheckField "d1" "made_to_quiz_at") Cases.w_empty_deck))).
Proof.
  apply (empty_deck_is_not_sent_to_the_generator Scenario.env_ok "d1" "u1" None
           Cases.w_empty_deck {| flashcards := []; made_to_quiz_at := None |});
    try reflexivity; discriminate.
Defined.

(* ===================================================================== *)
(** * Further properties of the moderation service                       *)
(* ===================================================================== *)

Ltac moderation_done :=
  unfold moderation_effect; exec_monad; repeat split; eauto 10.

Lemma moderation_try_effect env deckId id w :
  let '(r, w') := moderation_try env deckId id w in
  moderation_effect env deckId id w r w'.
Proof.
  unfold moderation_try. exec_calls.
  destruct (faults env OpGetDeckById); exec_monad; [moderation_done|].
  destruct (decks w !! to_string deckId) as [d|]; exec_monad; [|moderation_done].
  destruct (faults env OpWriteFile); exec_monad; [moderation_done|].
  destruct (faults env OpSendPromptInline); exec_monad; [moderation_done|].
  destruct (generate env _ _ _) as [result|err]; exec_monad; [|moderation_done].
  destruct (verdict_of_result result) as [verdict|err] eqn:Hv; exec_monad;
    [|moderation_done].
  destruct (faults env OpCreatePublishRequest); exec_monad; [moderation_done|].
  destruct (faults env OpGetPublishRequestByDeckId); exec_monad; moderation_done.
Qed.

Lemma moderation_200_recorded env deckId id w :
  let '(r, w') := geminiModerationService env deckId id w in
  status r = 200 ->
  exists result verdict,
    data r = Some result
    /\ verdict_of_result result = Returned verdict
    /\ publish_requests w'
       = publish_requests w ++ [recorded_request env w deckId id verdict].
Proof.
  pose proof (moderation_try_effect env deckId id w) as H.
  destruct (moderation_try env deckId id w) as [[v|e] w'] eqn:E.
  - rewrite (geminiModerationService_returned _ _ _ _ _ _ E). intros _.
    destruct H as (_ & _ & _ & _ & result & verdict & -> & Hv & Hp). simpl. eauto.
  - rewrite (geminiModerationService_thrown _ _ _ _ _ _ E). simpl.
    repeat case_decide; done.
Qed.



(** X21. Two successful moderations of the same deck by the same caller
    leave two publish requests: the service does not look for a request
    of the deck before it writes one. *)
Theorem repeated_moderation_is_not_deduplicated env env' deckId id w :
  let w1 := snd (geminiModerationService env deckId id w) in
  status (fst (geminiModerationService env deckId id w)) = 200 ->
  status (fst (geminiModerationService env' deckId id w1)) = 200 ->
  exists verdict1 verdict2,
    publish_requests (snd (geminiModerationService env' deckId id w1))
    = publish_requests w ++ [recorded_request env w deckId id verdict1;
                             recorded_request env' w1 deckId id verdict2].
Proof.
  cbv zeta.
  pose proof (moderation_200_recorded env deckId id w) as H1.
  destruct (geminiModerationService env deckId id w) as [r1 w1].
  pose proof (moderation_200_recorded env' deckId id w1) as H2. simpl.
  destruct (geminiModerationService env' deckId id w1) as [r2 w2].
  intros S1 S2.
  destruct (H1 S1) as (_ & v1 & _ & _ & E1). destruct (H2 S2) as (_ & v2 & _ & _ & E2).
  exists v1, v2. simpl. by rewrite E2, E1, <- app_assoc.
Qed.




Lemma repeated_moderation_is_not_deduplicated_witness :
  let w1 := snd (geminiModerationService Scenario.env_moderation (JStr "d1") (JStr "u1")
                   Scenario.w_fresh) in
  exists verdict1 verdict2,
    publish_requests (snd (geminiModerationService Scenario.env_moderation (JStr "d1")
                             (JStr "u1") w1))
    = publish_requests Scenario.w_fresh
      ++ [recorded_request Scenario.env_moderation Scenario.w_fresh (JStr "d1")
            (JStr "u1") verdict1;
          recorded_request Scenario.env_moderation w1 (JStr "d1") (JStr "u1") verdict2].
Proof.
  apply (repeated_moderation_is_not_deduplicated Scenario.env_moderation
           Scenario.env_moderation (JStr "d1") (JStr "u1") Scenario.w_fresh);
    vm_compute; reflexivity.
Defined.


(* ===================================================================== *)
(** * Properties of the flashcard service                                *)
(* ===================================================================== *)

Section FlashcardFacts.
Import FlashcardService.

Ltac exec_flash_with defs :=
  defs;
  unfold downloadFile, called, on_world, cleanup, cleanupTempFile,
         bind, get, ret, modify, throw, lift, try_catch in *;
  cbn [fworld fcalls set_tmp_files tmp_files decks quizzes publish_requests now trace
       fst snd] in *.

Ltac exec_flash := exec_flash_with ltac:(unfold generate_and_store in *).
Ltac exec_service := exec_flash_with ltac:(idtac).

(** What [generate_and_store] leaves behind and returns. *)
Lemma generate_and_store_spec fenv body id withFile filePath st :
  let '(r, st') := generate_and_store fenv body id withFile filePath st in
  fworld st' = fworld st
  /\ match r with
     | Returned a =>
         exists message cleaned cards deckId,
           a = {| f_status := 200; f_request_owner_id := Some id; f_message := message;
                  f_data := DeckCreated deckId |}
           /\ cleanTitle fenv (title body) = Returned cleaned
           /\ createDeck fenv (deck_meta fenv body id cleaned cards) = Returned deckId
           /\ createFlashcard fenv deckId cards = Returned tt
           /\ fcalls st' = fcalls st ++
                [CallSendPrompt withFile filePath;
                 CallCreateDeck (deck_meta fenv body id cleaned cards);
                 CallCreateFlashcard deckId cards]
     | Thrown e =>
         exists calls, fcalls st' = fcalls st ++ CallSendPrompt withFile filePath :: calls
     end.
Proof.
  exec_flash.
  destruct (generate_flashcards fenv withFile _) as [response|e]; exec_flash;
    [|split; [done|by exists []]].
  destruct (terms_and_definitions response) as [flashcards|e]; exec_flash;
    [|split; [done|by exists []]].
  destruct (cleanTitle fenv (title body)) as [cleaned|e] eqn:Ht; exec_flash;
    [|split; [done|by exists []]].
  destruct (array_of flashcards) as [cards|e]; exec_flash;
    [|split; [done|by exists []]].
  destruct (createDeck fenv _) as [deckId|e] eqn:Hd; exec_flash.
  2:{ split; [done|]. eexists. by rewrite <- app_assoc. }
  destruct (createFlashcard fenv deckId cards) as [[]|e] eqn:Hf; exec_flash.
  - split; [done|]. exists (response_message response), cleaned, cards, deckId.
    repeat split; try done. by rewrite <- !app_assoc.
  - split; [done|]. eexists. by rewrite <- !app_assoc.
Qed.

(** The four ways in which the service ends. *)
Lemma flashcard_service_cases fenv body id st :
  let '(r, st') := geminiFlashcardService fenv body id st in
  exists a,
    r = Returned a
    /\ ((a = missing_extension /\ st' = st)
        \/ (a = file_retrieval_failure
            /\ given fenv (fileName body) = true
            /\ storage_download fenv (default "" (fileName body)) id = None
            /\ fcalls st' = fcalls st ++
                 [CallDownloadFile (default "" (fileName body))
                                   (default "" (fileExtension body)) id;
                  CallCleanupTempFile ""])
        \/ (a = unknown_server_error id
            /\ exists calls, fcalls st' = fcalls st ++ calls
                 /\ exists path, In (CallSendPrompt (given fenv (fileName body)) path) calls)
        \/ (exists message cleaned cards deckId,
              a = {| f_status := 200; f_request_owner_id := Some id;
                     f_message := message; f_data := DeckCreated deckId |}
              /\ cleanTitle fenv (title body) = Returned cleaned
              /\ createDeck fenv (deck_meta fenv body id cleaned cards) = Returned deckId
              /\ createFlashcard fenv deckId cards = Returned tt
              /\ exists pre post,
                   fcalls st' = fcalls st ++ pre ++
                     [CallCreateDeck (deck_meta fenv body id cleaned cards);
                      CallCreateFlashcard deckId cards] ++ post
                   /\ Forall (fun c => match c with
                                       | CallCleanupTempFile _ => True
                                       | _ => False
                                       end) post)).
Proof.
  unfold geminiFlashcardService.
  destruct (given fenv (fileName body)) eqn:Hfile.
  - destruct (given fenv (fileExtension body)) eqn:Hext; simpl.
    2:{ exists missing_extension. split; [done|]. by left. }
    exec_service.
    destruct (storage_download fenv _ id) as [content|] eqn:Hdl; exec_service.
    + destruct (decide (download_path id (default "" (fileExtension body)) = ""))
        as [E|_].
      { by vm_compute in E. }
      match goal with
      | |- context [generate_and_store ?f ?b ?i ?wf ?p ?s] =>
          pose proof (generate_and_store_spec f b i wf p s) as Hs;
          destruct (generate_and_store f b i wf p s) as [[a|e] st2]
      end; exec_service.
      * destruct Hs as (_ & message & cleaned & cards & deckId & -> & Ht & Hd & Hf & Hc).
        eexists. split; [done|]. right. right. right.
        exists message, cleaned, cards, deckId. repeat split; try done.
        eexists [_; _], [_]. rewrite Hc. simpl. rewrite <- !app_assoc. simpl.
        split; [reflexivity|]. by repeat constructor.
      * destruct Hs as (_ & calls & Hc).
        eexists. split; [done|]. right. right. left. split; [done|].
        eexists. rewrite Hc. simpl. rewrite <- !app_assoc. simpl.
        split; [reflexivity|]. eexists. right. by left.
    + destruct (decide ("" = "")) as [_|E]; [|done]. exec_service.
      eexists. split; [done|]. right. left. repeat split; try done.
      by rewrite <- app_assoc.
  - unfold try_catch.
    pose proof (generate_and_store_spec fenv body id false "" st) as Hs.
    destruct (generate_and_store fenv body id false "" st) as [[a|e] st2]; exec_service.
    + destruct Hs as (_ & message & cleaned & cards & deckId & -> & Ht & Hd & Hf & Hc).
      eexists. split; [done|]. right. right. right.
      exists message, cleaned, cards, deckId. repeat split; try done.
      exists [CallSendPrompt false ""], []. rewrite Hc. split; [by simpl|constructor].
    + destruct Hs as (_ & calls & Hc).
      eexists. split; [done|]. right. right. left. split; [done|].
      eexists. split; [exact Hc|]. eexists. by left.
Qed.


(** X24. When the download of a named file fails, the service answers
    500 FILE_RETRIEVAL_FAILURE without the request owner; it has called
    neither the generator nor the deck repository, and its [finally]
    calls [cleanupTempFile] with the empty path. *)
Theorem failed_download_stops_before_the_generator fenv body id st :
  given fenv (fileName body) = true ->
  given fenv (fileExtension body) = true ->
  storage_download fenv (default "" (fileName body)) id = None ->
  geminiFlashcardService fenv body id st
  = (Returned file_retrieval_failure,
     {| fworld := cleanupTempFile "" (fworld st);
        fcalls := fcalls st ++
          [CallDownloadFile (default "" (fileName body))
                            (default "" (fileExtension body)) id;
           CallCleanupTempFile ""] |}).
Proof.
  intros Hfile Hext Hdl. unfold geminiFlashcardService.
  rewrite Hfile, Hext. simpl. exec_service. rewrite Hdl. exec_service.
  destruct (decide ("" = "")) as [_|E]; [|done]. exec_service.
  by rewrite <- app_assoc.
Qed.

(** X25. When the service answers 200, it has created one deck, private
    and owned by the caller, whose [flashcard_count] is the number of
    flashcards it then stored under the id of that deck, and the answer
    carries that id. *)
Theorem created_deck_counts_its_flashcards fenv body id st a :
  fst (geminiFlashcardService fenv body id st) = Returned a ->
  f_status a = 200 ->
  exists meta deckId cards,
    f_data a = DeckCreated deckId
    /\ createDeck fenv meta = Returned deckId
    /\ createFlashcard fenv deckId cards = Returned tt
    /\ flashcard_count meta = length cards
    /\ owner_id meta = id
    /\ dm_is_private meta = true
    /\ In (CallCreateDeck meta) (fcalls (snd (geminiFlashcardService fenv body id st)))
    /\ In (CallCreateFlashcard deckId cards)
          (fcalls (snd (geminiFlashcardService fenv body id st))).
Proof.
  pose proof (flashcard_service_cases fenv body id st) as H.
  destruct (geminiFlashcardService fenv body id st) as [r st'].
  destruct H as (a' & -> & H). intros [= <-] Hs. simpl.
  destruct H as [[-> _]|[(-> & _)|[(-> & _)|
    (m & t & c & d & -> & Ht & Hd & Hf & pre & post & Hc & _)]]];
    try discriminate Hs.
  eexists _, d, c. repeat split; try done; rewrite Hc, !in_app_iff; simpl; auto 10.
Qed.

(** X26. For a body whose [fileName] and [fileExtension] are strings or
    absent, the service does not throw: it answers 200 with the request
    owner and the id of a deck, or 422 having done nothing, or 500 with
    an error code. *)
Theorem flashcard_service_answer_classes fenv body id st :
  exists a,
    fst (geminiFlashcardService fenv body id st) = Returned a
    /\ ((f_status a = 200 /\ f_request_owner_id a = Some id
         /\ exists deckId, f_data a = DeckCreated deckId)
        \/ (f_status a = 422 /\ snd (geminiFlashcardService fenv body id st) = st)
        \/ (f_status a = 500 /\ exists error message, f_data a = Failure error message)).
Proof.
  pose proof (flashcard_service_cases fenv body id st) as H.
  destruct (geminiFlashcardService fenv body id st) as [r st'].
  destruct H as (a & -> & H). exists a. split; [done|]. simpl.
  destruct H as [[-> ->]|[(-> & _)|[(-> & _)|(m & t & c & d & -> & _)]]]; simpl; eauto 10.
Qed.

(** X27. When [createFlashcard] rejects after [createDeck] has succeeded
    (no file given), the service answers 500 UNKNOWN_SERVER_ERROR and
    makes no further call: the deck it created, which counts flashcards
    that were not stored, is not removed. *)
Theorem failed_flashcards_leave_the_deck fenv body id st message cleaned cards deckId e :
  given fenv (fileName body) = false ->
  generate_flashcards fenv false None = Returned (FrTerms message cards) ->
  cleanTitle fenv (title body) = Returned cleaned ->
  createDeck fenv (deck_meta fenv body id cleaned cards) = Returned deckId ->
  createFlashcard fenv deckId cards = Thrown e ->
  geminiFlashcardService fenv body id st
  = (Returned (unknown_server_error id),
     {| fworld := fworld st;
        fcalls := fcalls st ++ [CallSendPrompt false "";
                                CallCreateDeck (deck_meta fenv body id cleaned cards);
                                CallCreateFlashcard deckId cards] |}).
Proof.
  intros Hfile Hgen Ht Hd Hf. unfold geminiFlashcardService.
  rewrite Hfile. exec_flash. rewrite Hgen. exec_flash. simpl.
  rewrite Ht. exec_flash. simpl. rewrite Hd. exec_flash. rewrite Hf. exec_flash.
  by rewrite <- !app_assoc.
Qed.

End FlashcardFacts.


Lemma failed_download_stops_before_the_generator_witness :
  FlashcardService.geminiFlashcardService (Cases.flash_env None (Returned tt))
    Cases.with_file (JStr "u1") Cases.start
  = (Returned FlashcardService.file_retrieval_failure,
     {| FlashcardService.fworld :=
          cleanupTempFile "" (FlashcardService.fworld Cases.start);
        FlashcardService.fcalls :=
          FlashcardService.fcalls Cases.start ++
          [FlashcardService.CallDownloadFile "notes.pdf" ".pdf" (JStr "u1");
           FlashcardService.CallCleanupTempFile ""] |}).
Proof.
  apply (failed_download_stops_before_the_generator (Cases.flash_env None (Returned tt))
           Cases.with_file (JStr "u1") Cases.start); reflexivity.
Defined.

Lemma created_deck_counts_its_flashcards_witness :
  exists meta deckId cards,
    FlashcardService.DeckCreated "deck-1" = FlashcardService.DeckCreated deckId
    /\ FlashcardService.createDeck (Cases.flash_env None (Returned tt)) meta
       = Returned deckId
    /\ FlashcardService.createFlashcard (Cases.flash_env None (Returned tt)) deckId cards
       = Returned tt
    /\ FlashcardService.flashcard_count meta = length cards
    /\ FlashcardService.owner_id meta = JStr "u1"
    /\ FlashcardService.dm_is_private meta = true
    /\ In (FlashcardService.CallCreateDeck meta)
          (FlashcardService.fcalls
             (snd (FlashcardService.geminiFlashcardService
                     (Cases.flash_env None (Returned tt)) Cases.without_file
                     (JStr "u1") Cases.start)))
    /\ In (FlashcardService.CallCreateFlashcard deckId cards)
          (FlashcardService.fcalls
             (snd (FlashcardService.geminiFlashcardService
                     (Cases.flash_env None (Returned tt)) Cases.without_file
                     (JStr "u1") Cases.start))).
Proof.
  apply (created_deck_counts_its_flashcards (Cases.flash_env None (Returned tt))
           Cases.without_file (JStr "u1") Cases.start
           {| FlashcardService.f_status := 200;
              FlashcardService.f_request_owner_id := Some (JStr "u1");
              FlashcardService.f_message := JStr "done";
              FlashcardService.f_data := FlashcardService.DeckCreated "deck-1" |});
    reflexivity.
Defined.

Lemma failed_flashcards_leave_the_deck_witness :
  FlashcardService.geminiFlashcardService
    (Cases.flash_env None (Thrown (new_Error "UNAVAILABLE")))
    Cases.without_file (JStr "u1") Cases.start
  = (Returned (FlashcardService.unknown_server_error (JStr "u1")),
     {| FlashcardService.fworld := FlashcardService.fworld Cases.start;
        FlashcardService.fcalls :=
          FlashcardService.fcalls Cases.start ++
          [FlashcardService.CallSendPrompt false "";
           FlashcardService.CallCreateDeck
             (FlashcardService.deck_meta
                (Cases.flash_env None (Thrown (new_Error "UNAVAILABLE")))
                Cases.without_file (JStr "u1") (JStr "Notes")
                [Cases.term "a"; Cases.term "b"]);
           FlashcardService.CallCreateFlashcard "deck-1"
             [Cases.term "a"; Cases.term "b"]] |}).
Proof.
  apply (failed_flashcards_leave_the_deck
           (Cases.flash_env None (Thrown (new_Error "UNAVAILABLE")))
           Cases.without_file (JStr "u1") Cases.start (JStr "done") (JStr "Notes")
           [Cases.term "a"; Cases.term "b"] "deck-1" (new_Error "UNAVAILABLE"));
    reflexivity.
Defined.
